(** * Texas CAD scraper: lead scoring, batch generation, statistics, export

    A shallow embedding of [scrapers/texas_cad_scraper.py] (class
    [TexasCADScraper]) and the properties of its scorer, generator,
    aggregator and CSV exporter.

    Modelling conventions.
    - Python [int] is [Z]; Python [float] is idealised as an exact rational
      [Q] (no binary64 rounding); [int(x)] on a float truncates toward zero.
    - The [random] module and [datetime.now()] are oracles carried by a
      [World]: every primitive draw consumes one raw number of the stream
      [rng], every clock read consumes one tick of [clock].
    - Exceptions are explicit: a computation is a function from a [World] to
      either a value with the next world, or a raised exception.
    - The dictionary [texas_cads] is an association list in insertion order
      (the order [.items()] iterates in); dictionaries whose keys are data
      ([counties], [value_ranges], [lead_scores], the statistics result,
      the file system) are [gmap]s; the nineteen-key literal
      [property_data] is a record.
    - Log lines are not part of the model. A [try ... except] block is
      embedded by its [try] part: where the handler would run, the embedding
      has the [Raises] outcome. *)

From Stdlib Require Import ZArith QArith Qround Qminmax Lia Lqa.
From stdpp Require Import base option list strings pretty gmap.

Local Open Scope string_scope.
Local Open Scope list_scope.
Local Open Scope Z_scope.

(** ** Python values *)

Module Py.

Inductive exn : Type :=
| IndexError
| KeyError
| ZeroDivisionError.

Inductive outcome (A : Type) : Type :=
| Returns (a : A)
| Raises (e : exn).
Arguments Returns {A} a.
Arguments Raises {A} e.

(** [int(x)] for a float [x]: truncation toward zero. *)
Definition int (x : Q) : Z := Z.quot (Qnum x) (Zpos (Qden x)).

(** [round(x, 2)]: nearest multiple of 1/100, ties to the even one. *)
Definition round2 (x : Q) : Q :=
  let y := (x * 100)%Q in
  let f := Qfloor y in
  let twice_frac := (2 * (y - inject_Z f))%Q in
  let n := match (twice_frac ?= 1)%Q with
           | Lt => f
           | Gt => f + 1
           | Eq => if Z.even f then f else f + 1
           end in
  (inject_Z n / 100)%Q.

(** [needle in haystack] on strings. *)
Fixpoint str_in (needle haystack : string) : bool :=
  String.prefix needle haystack ||
  match haystack with
  | EmptyString => false
  | String _ rest => str_in needle rest
  end.

(** [f"{n:02d}"] for a non-negative [n]. *)
Definition pad2 (n : Z) : string :=
  if (n <? 10)%Z then "0" +:+ pretty n else pretty n.

(** Comparison of floats: [x > y]. *)
Definition gt (x y : Q) : bool :=
  match (x ?= y)%Q with Gt => true | _ => false end.

(** [a / b] on integers (true division): ZeroDivisionError when [b] is 0. *)
Definition truediv (a b : Z) : outcome Q :=
  if b =? 0 then Raises ZeroDivisionError
  else Returns (inject_Z a / inject_Z b)%Q.

(** A cell of heterogeneous Python data (a CSV field, a JSON value). *)
Inductive cell : Type :=
| CInt (n : Z)
| CFloat (x : Q)
| CStr (s : string)
| CBool (b : bool).

End Py.
Export Py.

(** ** The world: random source, clock, external sink, file system *)

Record DateTime : Type := mkDateTime {
year : Z;
isoformat : string
}.

(** A file written through [csv.DictWriter]: header, then one row per record. *)
Record CsvFile : Type := mkCsvFile {
csv_header : list string;
csv_rows : list (list cell)
}.

Record World : Type := mkWorld {
rng : nat -> nat;          (* raw outputs of the generator, in order *)
rng_pos : nat;
clock : nat -> DateTime;   (* successive results of [datetime.now()] *)
clock_pos : nat;
sink_reply : nat -> bool;  (* successive results of [insert_lead] *)
sink_log : list (string * list (string * cell));
files : gmap string CsvFile
}.

Definition M (A : Type) : Type := World -> outcome (A * World).

#[export] Instance M_ret : MRet M := fun A a w => Returns (a, w).
#[export] Instance M_bind : MBind M := fun A B k m w =>
match m w with
| Returns (a, w') => k a w'
| Raises e => Raises e
end.

Definition raise {A : Type} (e : exn) : M A := fun _ => Raises e.

(** A computation that does not touch the world. *)
Definition lift {A : Type} (o : outcome A) : M A := fun w =>
  match o with
  | Returns a => Returns (a, w)
  | Raises e => Raises e
  end.

(** One raw number from the generator. *)
Definition next_raw : M nat := fun w =>
Returns (rng w (rng_pos w),
         mkWorld (rng w) (S (rng_pos w)) (clock w) (clock_pos w)
                 (sink_reply w) (sink_log w) (files w)).

(** [datetime.now()]. *)
Definition datetime_now : M DateTime := fun w =>
Returns (clock w (clock_pos w),
         mkWorld (rng w) (rng_pos w) (clock w) (S (clock_pos w))
                 (sink_reply w) (sink_log w) (files w)).

(** ** The [random] module *)

Module random.

(** [Random._randbelow(n)] for [n > 0]: some integer in [0, n). *)
Definition randbelow (n : Z) : M Z :=
  k ← next_raw; mret (Z.of_nat k mod n).

(** [random.random()]: a multiple of 2^-53 in [0, 1). *)
Definition random : M Q :=
  k ← next_raw; mret (Qmake (Z.of_nat k mod 2 ^ 53) (2 ^ 53)).

(** [random.uniform(a, b)] is [a + (b - a) * random()]. *)
Definition uniform (a b : Q) : M Q :=
  r ← random; mret (a + (b - a) * r)%Q.

(** [random.randint(a, b)] is [a + _randbelow(b - a + 1)]. *)
Definition randint (a b : Z) : M Z :=
  k ← randbelow (b - a + 1); mret (a + k).

(** [random.choice(seq)]: IndexError on an empty sequence. *)
Definition choice {A : Type} (seq : list A) : M A :=
  match seq with
  | [] => raise IndexError
  | _ =>
      i ← randbelow (Z.of_nat (length seq));
      match seq !! Z.to_nat i with
      | Some x => mret x
      | None => raise IndexError
      end
  end.

End random.

(** ** [supabase_config.insert_lead] *)

(** Modelled from the spec: [insert_lead] lives in [supabase_config], which is
    not part of the sources; the spec gives it the contract
    [insert(table_name, record) -> success: boolean]. The call records the
    forwarded row and answers with the next reply of the sink. *)
Definition insert_lead (table : string) (row : list (string * cell)) : M bool :=
  fun w =>
    Returns (sink_reply w (length (sink_log w)),
             mkWorld (rng w) (rng_pos w) (clock w) (clock_pos w)
                     (sink_reply w) (sink_log w ++ [(table, row)])%list (files w)).

(** ** [TexasCADScraper.__init__]: the county table *)

Record CadInfo : Type := mkCadInfo {
  url : string;
  population : Z;
  major_cities : list string
}.

Definition texas_cads : list (string * CadInfo) :=
  [ ("Harris County",
     mkCadInfo "https://hcad.org" 4731145
               ["Houston"; "Pasadena"; "Pearland"; "League City"]);
    ("Dallas County",
     mkCadInfo "https://dallascad.org" 2613539
               ["Dallas"; "Irving"; "Garland"; "Mesquite"; "Richardson"]);
    ("Tarrant County",
     mkCadInfo "https://tad.org" 2110640
               ["Fort Worth"; "Arlington"; "Grand Prairie"; "Mansfield"]);
    ("Bexar County",
     mkCadInfo "https://bcad.org" 2009324
               ["San Antonio"; "Live Oak"; "Converse"; "Universal City"]);
    ("Travis County",
     mkCadInfo "https://tcad.org" 1290188
               ["Austin"; "Round Rock"; "Pflugerville"; "Cedar Park"]);
    ("Collin County",
     mkCadInfo "https://collincad.org" 1064465
               ["Plano"; "McKinney"; "Frisco"; "Allen"]);
    ("Hidalgo County",
     mkCadInfo "https://hidalgocad.org" 870781
               ["McAllen"; "Edinburg"; "Mission"; "Pharr"]);
    ("Fort Bend County",
     mkCadInfo "https://fbcad.org" 822779
               ["Sugar Land"; "Missouri City"; "Stafford"; "Richmond"]);
    ("Denton County",
     mkCadInfo "https://dentoncad.com" 906422
               ["Denton"; "Lewisville"; "Flower Mound"; "Carrollton"]);
    ("Montgomery County",
     mkCadInfo "https://mctx.org" 620443
               ["Conroe"; "The Woodlands"; "Spring"; "Tomball"]) ].

(** ** [generate_zipcode_for_county] and [get_base_property_value] *)

Definition zip_ranges : gmap string (list string) :=
  list_to_map
  [ ("Harris County", ["77001"; "77002"; "77003"; "77004"; "77005"; "77006"; "77007"]);
    ("Dallas County", ["75201"; "75204"; "75206"; "75214"; "75218"; "75230"; "75240"]);
    ("Tarrant County", ["76101"; "76104"; "76108"; "76116"; "76120"; "76132"; "76140"]);
    ("Bexar County", ["78201"; "78202"; "78203"; "78204"; "78205"; "78206"; "78207"]);
    ("Travis County", ["78701"; "78702"; "78703"; "78704"; "78705"; "78728"; "78729"]);
    ("Collin County", ["75002"; "75009"; "75013"; "75023"; "75024"; "75070"; "75071"]);
    ("Hidalgo County", ["78501"; "78502"; "78503"; "78504"; "78539"; "78540"; "78541"]);
    ("Fort Bend County", ["77469"; "77478"; "77479"; "77489"; "77498"; "77584"; "77585"]);
    ("Denton County", ["76201"; "76205"; "76226"; "75019"; "75022"; "75028"; "75067"]);
    ("Montgomery County", ["77301"; "77302"; "77303"; "77304"; "77384"; "77385"; "77386"]) ].

Definition generate_zipcode_for_county (county : string) : M string :=
  random.choice (default ["75001"] (zip_ranges !! county)).

Definition base_values : gmap string Z :=
  list_to_map
  [ ("Harris County", 280000);
    ("Dallas County", 320000);
    ("Tarrant County", 280000);
    ("Bexar County", 220000);
    ("Travis County", 450000);
    ("Collin County", 380000);
    ("Hidalgo County", 150000);
    ("Fort Bend County", 350000);
    ("Denton County", 350000);
    ("Montgomery County", 300000) ].

Definition get_base_property_value (county : string) : Z :=
  default 250000 (base_values !! county).

(** ** [calculate_cad_lead_score] *)

Definition calculate_cad_lead_score (value year_built : Z)
    (owner_name : string) : M Z :=
  let score := 5 in
  let score :=
    if value >? 500000 then score + 3
    else if value >? 300000 then score + 2
    else if value >? 200000 then score + 1
    else score in
  now ← datetime_now;
  let current_year := year now in
  let age := current_year - year_built in
  let score :=
    if age >? 15 then score + 3
    else if age >? 10 then score + 2
    else if age >? 5 then score + 1
    else score in
  let score := if str_in "&" owner_name then score + 1 else score in
  mret (Z.min score 10).

(** The three additive adjustments of the scorer, and the value the local
    [score] holds just before [return min(score, 10)]. *)
Definition value_points (value : Z) : Z :=
  if value >? 500000 then 3
  else if value >? 300000 then 2
  else if value >? 200000 then 1
  else 0.

Definition age_points (age : Z) : Z :=
  if age >? 15 then 3
  else if age >? 10 then 2
  else if age >? 5 then 1
  else 0.

Definition joint_points (owner_name : string) : Z :=
  if str_in "&" owner_name then 1 else 0.

Definition lead_score_sum (current_year value year_built : Z)
    (owner_name : string) : Z :=
  5 + value_points value + age_points (current_year - year_built)
    + joint_points owner_name.

(** ** [create_texas_cad_sample_data] *)

Definition first_names : list string :=
  [ "James"; "Mary"; "John"; "Patricia"; "Robert"; "Jennifer"; "Michael"; "Linda";
    "William"; "Elizabeth"; "David"; "Barbara"; "Richard"; "Susan"; "Joseph"; "Jessica";
    "Thomas"; "Sarah"; "Christopher"; "Karen"; "Charles"; "Nancy"; "Daniel"; "Lisa" ].

Definition last_names : list string :=
  [ "Smith"; "Johnson"; "Williams"; "Brown"; "Jones"; "Garcia"; "Miller"; "Davis";
    "Rodriguez"; "Martinez"; "Hernandez"; "Lopez"; "Gonzalez"; "Wilson"; "Anderson";
    "Thomas"; "Taylor"; "Moore"; "Jackson"; "Martin"; "Lee"; "Perez"; "Thompson" ].

Definition street_names : list string :=
  [ "Main St"; "Oak Ave"; "Elm St"; "Park Blvd"; "Cedar Ln"; "Maple Dr";
    "Pine St"; "Hill Rd"; "Valley View"; "Sunset Blvd"; "Heritage Way";
    "Legacy Dr"; "Champions Blvd"; "Preston Rd"; "Spring Valley"; "Ranch Rd";
    "County Line Rd"; "Farm to Market Rd"; "State Highway"; "Business Park Dr" ].

Definition property_types : list string :=
  [ "Single Family Residence"; "Townhouse"; "Condominium";
    "Mobile Home"; "Duplex"; "Commercial Property" ].

(** The dictionary literal [property_data]. *)
Record PropertyData : Type := mkPropertyData {
  account_number : string;
  owner_name : string;
  property_address : string;
  city : string;
  county : string;
  zipcode : string;
  property_type : string;
  year_built : Z;
  square_feet : Z;
  lot_size_acres : Q;
  appraised_value : Z;
  market_value : Z;
  homestead_exemption : bool;
  last_sale_date : string;
  last_sale_price : Z;
  cad_url : string;
  lead_score : Z;
  data_source : string;
  scraped_at : string
}.

(** [property_data.items()], in the insertion order of the literal. *)
Definition items (p : PropertyData) : list (string * cell) :=
  [ ("account_number", CStr (account_number p));
    ("owner_name", CStr (owner_name p));
    ("property_address", CStr (property_address p));
    ("city", CStr (city p));
    ("county", CStr (county p));
    ("zipcode", CStr (zipcode p));
    ("property_type", CStr (property_type p));
    ("year_built", CInt (year_built p));
    ("square_feet", CInt (square_feet p));
    ("lot_size_acres", CFloat (lot_size_acres p));
    ("appraised_value", CInt (appraised_value p));
    ("market_value", CInt (market_value p));
    ("homestead_exemption", CBool (homestead_exemption p));
    ("last_sale_date", CStr (last_sale_date p));
    ("last_sale_price", CInt (last_sale_price p));
    ("cad_url", CStr (cad_url p));
    ("lead_score", CInt (lead_score p));
    ("data_source", CStr (data_source p));
    ("scraped_at", CStr (scraped_at p)) ].

(** The dictionary literal [supabase_data], built from [property_data]. *)
Definition supabase_data (p : PropertyData) : list (string * cell) :=
  [ ("account_number", CStr (account_number p));
    ("owner_name", CStr (owner_name p));
    ("address_text", CStr (property_address p));
    ("city", CStr (city p));
    ("county", CStr (county p));
    ("zip_code", CStr (zipcode p));
    ("property_type", CStr (property_type p));
    ("year_built", CInt (year_built p));
    ("square_feet", CInt (square_feet p));
    ("lot_size_acres", CFloat (lot_size_acres p));
    ("appraised_value", CInt (appraised_value p));
    ("market_value", CInt (market_value p));
    ("homestead_exemption", CBool (homestead_exemption p));
    ("last_sale_date", CStr (last_sale_date p));
    ("last_sale_price", CInt (last_sale_price p));
    ("cad_url", CStr (cad_url p));
    ("lead_score", CInt (lead_score p)) ].

(** [for x in xs: body], threading the variables the body assigns. *)
Fixpoint for_each {A St : Type} (xs : list A) (body : A -> St -> M St)
    (s : St) : M St :=
  match xs with
  | [] => mret s
  | x :: rest => s' ← body x s; for_each rest body s'
  end.

(** [min(max(int(population / 100000), 5), 15)]. *)
Definition property_count (population : Z) : Z :=
  Z.min (Z.max (int (inject_Z population / 100000)) 5) 15.

(** The body of the inner loop up to the completed [property_data]. *)
Definition sample_property (county : string) (data : CadInfo)
    : M PropertyData :=
  let cities := major_cities data in
  first_name ← random.choice first_names;
  last_name ← random.choice last_names;
  let owner_name := first_name +:+ " " +:+ last_name in
  r ← random.random;
  owner_name ←
    (if gt r 0.7 then
       spouse_first ← random.choice first_names;
       mret (first_name +:+ " & " +:+ spouse_first +:+ " " +:+ last_name)
     else mret owner_name);
  house_number ← random.randint 100 9999;
  street ← random.choice street_names;
  city ← random.choice cities;
  zipcode ← generate_zipcode_for_county county;
  let address :=
    pretty house_number +:+ " " +:+ street +:+ ", " +:+ city
      +:+ ", TX " +:+ zipcode in
  year_built ← random.randint 1975 2023;
  square_feet ← random.randint 1200 4500;
  u ← random.uniform 0.15 1.2;
  let lot_size := round2 u in
  let base_value := get_base_property_value county in
  let age_factor :=
    Qmax 0.7 (1 - inject_Z (2024 - year_built) * 0.01)%Q in
  let size_factor := (inject_Z square_feet / 2000)%Q in
  u ← random.uniform 0.8 1.3;
  let estimated_value :=
    int (inject_Z base_value * age_factor * size_factor * u)%Q in
  acct_hi ← random.randint 10000 99999;
  acct_lo ← random.randint 100 999;
  let account_number := pretty acct_hi +:+ "-" +:+ pretty acct_lo in
  property_type ← random.choice property_types;
  u ← random.uniform 0.95 1.05;
  let market_value := int (inject_Z estimated_value * u)%Q in
  homestead_exemption ←
    match property_types !! 0%nat with
    | None => raise IndexError
    | Some t =>
        if str_in "Residence" t then random.choice [true; false]
        else mret false
    end;
  sale_year ← random.randint 2018 2024;
  sale_month ← random.randint 1 12;
  sale_day ← random.randint 1 28;
  let last_sale_date :=
    pretty sale_year +:+ "-" +:+ pad2 sale_month +:+ "-" +:+ pad2 sale_day in
  u ← random.uniform 0.85 1.15;
  let last_sale_price := int (inject_Z estimated_value * u)%Q in
  let cad_url := url data +:+ "/property-detail/" +:+ account_number in
  lead_score ← calculate_cad_lead_score estimated_value year_built owner_name;
  now ← datetime_now;
  mret {| account_number := account_number;
          owner_name := owner_name;
          property_address := address;
          city := city;
          county := county;
          zipcode := zipcode;
          property_type := property_type;
          year_built := year_built;
          square_feet := square_feet;
          lot_size_acres := lot_size;
          appraised_value := estimated_value;
          market_value := market_value;
          homestead_exemption := homestead_exemption;
          last_sale_date := last_sale_date;
          last_sale_price := last_sale_price;
          cad_url := cad_url;
          lead_score := lead_score;
          data_source := "CAD";
          scraped_at := isoformat now |}.

Definition create_texas_cad_sample_data : M (list PropertyData) :=
  let sample_properties : list PropertyData := [] in
  for_each texas_cads (fun '(county, data) sample_properties =>
    let population := population data in
    let property_count := property_count population in
    for_each (seqZ 0 property_count) (fun i sample_properties =>
      property_data ← sample_property county data;
      (* the answer of the sink only selects a debug log line *)
      _ ← insert_lead "cad_leads" (supabase_data property_data);
      mret (sample_properties ++ [property_data])%list) sample_properties)
    sample_properties.

(** ** The scraper object and [scrape_all_texas_cads] *)

Record TexasCADScraper : Type := mkTexasCADScraper {
  all_properties : list PropertyData
}.

(** [__init__] leaves [all_properties] empty. *)
Definition init : TexasCADScraper := mkTexasCADScraper [].

(** Returns the generated records and the scraper holding them. *)
Definition scrape_all_texas_cads (self : TexasCADScraper)
    : M (list PropertyData * TexasCADScraper) :=
  all_sample_data ← create_texas_cad_sample_data;
  mret (all_sample_data, mkTexasCADScraper all_sample_data).

(** ** [get_cad_stats] *)

(** A value of the statistics dictionary. *)
Inductive stat : Type :=
| SInt (n : Z)
| SCounts (d : gmap string Z)
| SStr (s : string).

(** [d[k] += 1]: KeyError when [k] is absent. *)
Definition incr (k : string) (d : gmap string Z) : M (gmap string Z) :=
  match d !! k with
  | Some v => mret (<[k := v + 1]> d)
  | None => raise KeyError
  end.

(** The local variables the loop of [get_cad_stats] updates. *)
Record StatsVars : Type := mkStatsVars {
  counties : gmap string Z;
  value_ranges : gmap string Z;
  lead_scores : gmap string Z;
  homestead_count : Z;
  total_value : Z
}.

Definition stats_init : StatsVars :=
  {| counties := ∅;
     value_ranges :=
       list_to_map [ ("under_200k", 0); ("200k_400k", 0);
                     ("400k_600k", 0); ("over_600k", 0) ];
     lead_scores := list_to_map [ ("high", 0); ("medium", 0); ("low", 0) ];
     homestead_count := 0;
     total_value := 0 |}.

(** One iteration of [for prop in self.all_properties]. Every record carries
    all nineteen keys, so the defaults of [prop.get] are not taken. *)
Definition stats_step (prop : PropertyData) (v : StatsVars) : M StatsVars :=
  let county := county prop in
  let counties := <[county := default 0 (counties v !! county) + 1]> (counties v) in
  let value := appraised_value prop in
  let total_value := total_value v + value in
  value_ranges ←
    (if value <? 200000 then incr "under_200k" (value_ranges v)
     else if value <? 400000 then incr "200k_400k" (value_ranges v)
     else if value <? 600000 then incr "400k_600k" (value_ranges v)
     else incr "over_600k" (value_ranges v));
  let lead_score := lead_score prop in
  lead_scores ←
    (if lead_score >=? 8 then incr "high" (lead_scores v)
     else if lead_score >=? 6 then incr "medium" (lead_scores v)
     else incr "low" (lead_scores v));
  let homestead_count :=
    if homestead_exemption prop then homestead_count v + 1
    else homestead_count v in
  mret {| counties := counties;
          value_ranges := value_ranges;
          lead_scores := lead_scores;
          homestead_count := homestead_count;
          total_value := total_value |}.

Definition get_cad_stats (self : TexasCADScraper) : M (gmap string stat) :=
  match all_properties self with
  | [] => mret ∅
  | _ =>
      v ← for_each (all_properties self) stats_step stats_init;
      let len := Z.of_nat (length (all_properties self)) in
      average ←
        match all_properties self with
        | [] => mret 0
        | _ => q ← lift (truediv (total_value v) len); mret (int q)
        end;
      now ← datetime_now;
      mret (list_to_map
        [ ("total_properties", SInt len);
          ("total_appraised_value", SInt (total_value v));
          ("average_value", SInt average);
          ("counties", SCounts (counties v));
          ("value_ranges", SCounts (value_ranges v));
          ("lead_scores", SCounts (lead_scores v));
          ("homestead_properties", SInt (homestead_count v));
          ("scraped_at", SStr (isoformat now)) ])
  end.

(** [stats.get(key, 0)], as the summary report reads an integer entry. *)
Definition stats_get (stats : gmap string stat) (key : string) : stat :=
  default (SInt 0) (stats !! key).

(** ** [save_to_csv] *)

(** [list(self.all_properties[0].keys())]: IndexError on an empty list. *)
Definition first_fieldnames (props : list PropertyData) : M (list string) :=
  match props !! 0%nat with
  | Some first => mret (map fst (items first))
  | None => raise IndexError
  end.

(** [open(filename, 'w')] followed by the header and the rows. *)
Definition write_csv (filename : string) (fieldnames : list string)
    (rows : list (list cell)) : M unit := fun w =>
  Returns (tt,
           mkWorld (rng w) (rng_pos w) (clock w) (clock_pos w)
                   (sink_reply w) (sink_log w)
                   (<[filename := mkCsvFile fieldnames rows]> (files w))).


Definition save_to_csv (self : TexasCADScraper) (filename : string) : M unit :=
  match all_properties self with
  | [] => mret tt
  | _ =>
      fieldnames ← first_fieldnames (all_properties self);
      write_csv filename fieldnames
                (map (fun p => map snd (items p)) (all_properties self))
  end.

(** ** Observing computations *)

(** [returns o a]: the run [o] ended normally with value [a]. *)
Definition returns {A : Type} (o : outcome (A * World)) (a : A) : Prop :=
  exists w', o = Returns (a, w').

(** [wp m w Q]: from [w], [m] raises nothing and its value and final world
    satisfy [Q]. *)
Definition wp {A : Type} (m : M A) (w : World) (Q : A -> World -> Prop) : Prop :=
  match m w with
  | Returns (a, w') => Q a w'
  | Raises _ => False
  end.

(** The world after one clock read. *)
Definition tick (w : World) : World :=
  mkWorld (rng w) (rng_pos w) (clock w) (S (clock_pos w))
          (sink_reply w) (sink_log w) (files w).

(** The year [datetime.now()] reports in [w]. *)
Definition current_year (w : World) : Z := year (clock w (clock_pos w)).

(** The value of a run that ended normally. *)
Definition value_of {A} (o : outcome (A * World)) : option A :=
  match o with Returns (a, _) => Some a | Raises _ => None end.

(** The world after one raw draw. *)
Definition drawn (w : World) : World :=
  mkWorld (rng w) (S (rng_pos w)) (clock w) (clock_pos w)
          (sink_reply w) (sink_log w) (files w).

(** ** Sample worlds *)

(** The clock always reads a moment of 2024; every raw draw is 0. *)
Definition world_2024 : World :=
  mkWorld (fun _ => 0%nat) 0 (fun _ => mkDateTime 2024 "2024-06-01T12:00:00") 0
          (fun _ => true) [] ∅.

(** A clock that passes New Year between its first and second reading. *)
Definition new_year_clock (n : nat) : DateTime :=
  match n with
  | O => mkDateTime 2024 "2024-12-31T23:59:59"
  | _ => mkDateTime 2025 "2025-01-01T00:00:01"
  end.

Definition new_year_world : World :=
  mkWorld (fun _ => 0%nat) 0 new_year_clock 0 (fun _ => true) [] ∅.


(** ** Vocabulary of the statements *)

(** [clamp x lo hi] bounds [x] below by [lo] and above by [hi]. *)
Definition clamp (x lo hi : Z) : Z := Z.min (Z.max x lo) hi.


(** What holds of a record generated for county [c]: it is tagged with [c],
    its appraised value is positive, and its market value is the truncation
    of the appraised value times a factor of [0.95, 1.05]. *)
Definition generated_ok (c : string) (p : PropertyData) : Prop :=
  county p = c /\
  0 < appraised_value p /\
  (exists u, (0.95 <= u)%Q /\ (u <= 1.05)%Q /\
             market_value p = int (inject_Z (appraised_value p) * u)) /\
  95 * appraised_value p - 100 < 100 * market_value p /\
  100 * market_value p <= 105 * appraised_value p.

(** The batch is the concatenation of one segment per county, in table order,
    each of the county's record count and generated for that county. *)
Definition segments_ok (cads : list (string * CadInfo))
    (segs : list (list PropertyData)) : Prop :=
  Forall2 (fun cd seg =>
             length seg = Z.to_nat (property_count (population cd.2)) /\
             Forall (generated_ok cd.1) seg) cads segs.

(** The number of records whose appraised value satisfies [P]. *)
Definition count_values (P : Z -> bool) (props : list PropertyData) : Z :=
  Z.of_nat (length (filter (fun p => P (appraised_value p) = true) props)).

(** The four-way branch of [get_cad_stats] on the appraised value. *)
Definition bucket_step (value : Z) (vr : gmap string Z) : M (gmap string Z) :=
  if value <? 200000 then incr "under_200k" vr
  else if value <? 400000 then incr "200k_400k" vr
  else if value <? 600000 then incr "400k_600k" vr
  else incr "over_600k" vr.

(** The three-way branch of [get_cad_stats] on the lead score. *)
Definition tier_step (score : Z) (ls : gmap string Z) : M (gmap string Z) :=
  if score >=? 8 then incr "high" ls
  else if score >=? 6 then incr "medium" ls
  else incr "low" ls.

(** ** [rotate_proxy] *)






(** ** [scrape_county_cad] *)


(** ** [main] *)


(** ** Vocabulary of the further statements *)

(** [frame w0 w]: from [w0] to [w] only the positions in the random stream
    and in the clock have advanced. *)
Definition frame (w0 w : World) : Prop :=
  rng w = rng w0 /\ clock w = clock w0 /\ sink_reply w = sink_reply w0 /\
  sink_log w = sink_log w0 /\ files w = files w0 /\
  (rng_pos w0 <= rng_pos w)%nat /\ (clock_pos w0 <= clock_pos w)%nat.

(** The call [insert_lead('cad_leads', supabase_data)] made for a record. *)
Definition forwarded (p : PropertyData) : string * list (string * cell) :=
  ("cad_leads", supabase_data p).

(** The owner name is "F L", or "F & S L" for a joint ownership, with the
    names taken from the name lists. *)
Definition owner_shape (name : string) : Prop :=
  exists f l, f ∈ first_names /\ l ∈ last_names /\
    (name = f +:+ " " +:+ l \/
     exists s, s ∈ first_names /\ name = f +:+ " & " +:+ s +:+ " " +:+ l).

(** What the inner loop body establishes of a record generated for county
    [c] with table entry [data], under the clock [clk]. *)
Record generated_fields (clk : nat -> DateTime) (c : string) (data : CadInfo)
    (p : PropertyData) : Prop := mkGeneratedFields {
  gf_county : county p = c;
  gf_city : city p ∈ major_cities data;
  gf_zipcode : zipcode p ∈ default ["75001"] (zip_ranges !! c);
  gf_type : property_type p ∈ property_types;
  gf_year : 1975 <= year_built p <= 2023;
  gf_feet : 1200 <= square_feet p <= 4500;
  gf_lot : (0.15 <= lot_size_acres p)%Q /\ (lot_size_acres p <= 1.2)%Q;
  gf_value : 50400 <= appraised_value p <= 1303087;
  gf_sale : 85 * appraised_value p - 100 < 100 * last_sale_price p /\
            100 * last_sale_price p <= 115 * appraised_value p;
  gf_owner : owner_shape (owner_name p);
  gf_address : exists house_number street,
                 100 <= house_number <= 9999 /\ street ∈ street_names /\
                 property_address p =
                   pretty house_number +:+ " " +:+ street +:+ ", " +:+ city p
                     +:+ ", TX " +:+ zipcode p;
  gf_url : cad_url p = url data +:+ "/property-detail/" +:+ account_number p;
  gf_score : exists k,
               lead_score p =
                 Z.min (lead_score_sum (year (clk k)) (appraised_value p)
                          (year_built p) (owner_name p)) 10;
  gf_source : data_source p = "CAD";
  gf_stamp : exists k, scraped_at p = isoformat (clk k)
}.

(** The number of records of county [c]. *)
Definition count_county (c : string) (props : list PropertyData) : Z :=
  Z.of_nat (length (filter (fun p => county p = c) props)).

(** The number of records whose lead score satisfies [P]. *)
Definition count_scores (P : Z -> bool) (props : list PropertyData) : Z :=
  Z.of_nat (length (filter (fun p => P (lead_score p) = true) props)).

(** The number of records with the homestead exemption. *)
Definition count_homestead (props : list PropertyData) : Z :=
  Z.of_nat (length (filter (fun p => homestead_exemption p = true) props)).

(** The sum of the appraised values. *)
Definition sum_values (props : list PropertyData) : Z :=
  foldr (fun p acc => appraised_value p + acc) 0 props.

(** The nineteen keys of [property_data], in the order of the literal. *)
Definition property_keys : list string :=
  [ "account_number"; "owner_name"; "property_address"; "city"; "county";
    "zipcode"; "property_type"; "year_built"; "square_feet"; "lot_size_acres";
    "appraised_value"; "market_value"; "homestead_exemption"; "last_sale_date";
    "last_sale_price"; "cad_url"; "lead_score"; "data_source"; "scraped_at" ].

(** The key under which the sink receives a field of [property_data]. *)
Definition sink_key (key : string) : string :=
  if String.eqb key "property_address" then "address_text"
  else if String.eqb key "zipcode" then "zip_code"
  else key.

(** A batch cut into one segment per table entry, each of the entry's record
    count and with every record satisfying [P] for that entry. *)
Definition segmented (P : string -> CadInfo -> PropertyData -> Prop)
    (cads : list (string * CadInfo)) (segs : list (list PropertyData)) : Prop :=
  Forall2 (fun cd seg =>
             length seg = Z.to_nat (property_count (population cd.2)) /\
             Forall (P cd.1 cd.2) seg) cads segs.

(** [forwards w0 ps w]: from [w0] to [w] the records [ps] were forwarded to
    the sink, in order, and no file was written. *)
Definition forwards (w0 : World) (ps : list PropertyData) (w : World) : Prop :=
  sink_log w = sink_log w0 ++ map forwarded ps /\
  files w = files w0 /\ rng w = rng w0 /\ clock w = clock w0 /\
  sink_reply w = sink_reply w0.




(** * Properties *)

(** ** Reasoning about computations *)

Lemma wp_ret {A} (a : A) w Q : Q a w -> wp (mret a) w Q.
Proof. done. Qed.

Lemma wp_bind {A B} (m : M A) (k : A -> M B) w Q :
  wp m w (fun a w' => wp (k a) w' Q) -> wp (m ≫= k) w Q.
Proof.
  unfold wp, mbind, M_bind. destruct (m w) as [[a w']|e]; done.
Qed.

Lemma wp_mono {A} (m : M A) w (Q Q' : A -> World -> Prop) :
  wp m w Q -> (forall a w', Q a w' -> Q' a w') -> wp m w Q'.
Proof.
  unfold wp. destruct (m w) as [[a w']|e]; [|done]. intros H HQ. by apply HQ.
Qed.

Lemma wp_returns {A} (m : M A) w Q :
  wp m w Q -> exists a w', m w = Returns (a, w') /\ Q a w'.
Proof.
  unfold wp. destruct (m w) as [[a w']|e]; [|done]. intros H. by exists a, w'.
Qed.

Lemma wp_next_raw w (Q : nat -> World -> Prop) :
  (forall k w', Q k w') -> wp next_raw w Q.
Proof. intros H. apply H. Qed.

Lemma wp_datetime_now w (Q : DateTime -> World -> Prop) :
  Q (clock w (clock_pos w)) (tick w) -> wp datetime_now w Q.
Proof. done. Qed.

Lemma wp_randbelow n w (Q : Z -> World -> Prop) :
  0 < n -> (forall k w', 0 <= k < n -> Q k w') -> wp (random.randbelow n) w Q.
Proof.
  intros Hn H. apply wp_bind, wp_next_raw. intros k w'. apply wp_ret, H.
  apply Z.mod_pos_bound, Hn.
Qed.

Lemma wp_randint a b w (Q : Z -> World -> Prop) :
  a <= b -> (forall k w', a <= k <= b -> Q k w') -> wp (random.randint a b) w Q.
Proof.
  intros Hab H. apply wp_bind, wp_randbelow; [lia|].
  intros k w' Hk. apply wp_ret, H. lia.
Qed.

Lemma wp_random w (Q : Q -> World -> Prop) :
  (forall r w', (0 <= r)%Q -> (r < 1)%Q -> Q r w') -> wp random.random w Q.
Proof.
  intros H. apply wp_bind, wp_next_raw. intros k w'. apply wp_ret.
  pose proof (Z.mod_pos_bound (Z.of_nat k) (2 ^ 53) eq_refl) as [Hlo Hhi].
  apply H; unfold Qle, Qlt; simpl; lia.
Qed.

Lemma wp_uniform a b w (Q : Q -> World -> Prop) :
  (a <= b)%Q ->
  (forall u w', (a <= u)%Q -> (u <= b)%Q -> Q u w') ->
  wp (random.uniform a b) w Q.
Proof.
  intros Hab H. apply wp_bind, wp_random. intros r w' Hr0 Hr1.
  apply wp_ret, H; nra.
Qed.

Lemma wp_choice {A} (seq : list A) w (Q : A -> World -> Prop) :
  seq <> [] -> (forall x w', x ∈ seq -> Q x w') -> wp (random.choice seq) w Q.
Proof.
  intros Hne H. unfold random.choice. destruct seq as [|x0 seq']; [done|].
  set (seq := x0 :: seq') in *.
  apply wp_bind, wp_randbelow; [subst seq; simpl; lia|].
  intros i w' Hi.
  destruct (seq !! Z.to_nat i) as [x|] eqn:Hx.
  - apply wp_ret, H. by apply list_elem_of_lookup_2 in Hx.
  - apply lookup_ge_None in Hx. lia.
Qed.

Lemma wp_insert_lead table row w (Q : bool -> World -> Prop) :
  (forall b w', Q b w') -> wp (insert_lead table row) w Q.
Proof. intros H. apply H. Qed.

(** Loop rule: an invariant indexed by the number of completed iterations. *)
Lemma wp_for_each {A St} (Inv : nat -> St -> Prop) (xs : list A)
    (body : A -> St -> M St) s w :
  Inv 0%nat s ->
  (forall k x s w, xs !! k = Some x -> Inv k s ->
     wp (body x s) w (fun s' _ => Inv (S k) s')) ->
  wp (for_each xs body s) w (fun s' _ => Inv (length xs) s').
Proof.
  revert Inv s w. induction xs as [|x xs IH]; intros Inv s w H0 Hstep.
  - by apply wp_ret.
  - simpl. apply wp_bind.
    eapply wp_mono; [apply (Hstep 0%nat x s w); done|].
    intros s' w' Hs'. simpl in Hs'.
    apply (IH (fun k => Inv (S k))); [done|].
    intros k y s'' w'' Hy. by apply (Hstep (S k)).
Qed.

(** ** The lead scorer *)

Lemma value_points_range value : 0 <= value_points value <= 3.
Proof. unfold value_points. repeat case_match; lia. Qed.

Lemma age_points_range age : 0 <= age_points age <= 3.
Proof. unfold age_points. repeat case_match; lia. Qed.

Lemma joint_points_range owner : 0 <= joint_points owner <= 1.
Proof. unfold joint_points. case_match; lia. Qed.

Lemma value_points_mono v v' : v <= v' -> value_points v <= value_points v'.
Proof. unfold value_points. intros H. repeat case_match; lia. Qed.

Lemma age_points_mono a a' : a <= a' -> age_points a <= age_points a'.
Proof. unfold age_points. intros H. repeat case_match; lia. Qed.

(** The scorer reads the clock once, touches nothing else, and returns the
    clamped sum of the base score and the three adjustments. *)
Lemma calculate_cad_lead_score_eq value year_built owner w :
  calculate_cad_lead_score value year_built owner w =
  Returns (Z.min (lead_score_sum (current_year w) value year_built owner) 10,
           tick w).
Proof.
  unfold calculate_cad_lead_score, lead_score_sum, value_points, age_points,
    joint_points, current_year, mbind, M_bind, datetime_now, mret, M_ret, tick.
  do 2 f_equal. repeat case_match; lia.
Qed.

Lemma lead_score_clamped cy value year_built owner :
  5 <= Z.min (lead_score_sum cy value year_built owner) 10 <= 10.
Proof.
  pose proof (value_points_range value).
  pose proof (age_points_range (cy - year_built)).
  pose proof (joint_points_range owner).
  unfold lead_score_sum. lia.
Qed.

(** C4. For every value, year built and owner name (and whatever the clock
    says), the lead scorer returns an integer between 5 and 10: the base
    score is 5, each of the three adjustments is non-negative, and the sum is
    clamped to at most 10. *)
Theorem lead_score_in_5_10 (value year_built : Z) (owner : string) (w : World) :
  exists s,
    returns (calculate_cad_lead_score value year_built owner w) s /\
    5 <= s <= 10 /\
    s = Z.min (lead_score_sum (current_year w) value year_built owner) 10 /\
    0 <= value_points value /\
    0 <= age_points (current_year w - year_built) /\
    0 <= joint_points owner /\
    5 <= lead_score_sum (current_year w) value year_built owner.
Proof.
  pose proof (value_points_range value).
  pose proof (age_points_range (current_year w - year_built)).
  pose proof (joint_points_range owner).
  eexists. split; [eexists; apply calculate_cad_lead_score_eq|].
  unfold lead_score_sum. lia.
Qed.

(** C5, as stated, fails: two successive calls with the same three inputs
    return 6 and then 7 when the year changes between them. *)
Lemma lead_score_depends_on_clock :
  (s1 ← calculate_cad_lead_score 150000 2014 "Jane Doe";
   s2 ← calculate_cad_lead_score 150000 2014 "Jane Doe";
   mret (s1, s2)) new_year_world
  = Returns ((6, 7), tick (tick new_year_world)).
Proof. reflexivity. Qed.

(** C5, amended. The lead scorer is a function of its three inputs and of
    the calendar year the clock reports: two calls with the same three inputs
    made in worlds that agree on the current year return the same result.
    No random number is drawn, and nothing but the clock position changes. *)
Theorem lead_score_deterministic_per_year (value year_built : Z)
    (owner : string) (w1 w2 : World) :
  current_year w1 = current_year w2 ->
  exists s,
    calculate_cad_lead_score value year_built owner w1 = Returns (s, tick w1) /\
    calculate_cad_lead_score value year_built owner w2 = Returns (s, tick w2).
Proof.
  intros Hy. eexists. rewrite !calculate_cad_lead_score_eq, Hy. done.
Qed.

Lemma lead_score_deterministic_per_year_witness :
  current_year new_year_world = current_year world_2024 /\
  exists s,
    calculate_cad_lead_score 150000 2014 "Jane Doe" new_year_world
      = Returns (s, tick new_year_world) /\
    calculate_cad_lead_score 150000 2014 "Jane Doe" world_2024
      = Returns (s, tick world_2024).
Proof.
  split; [reflexivity|].
  apply (lead_score_deterministic_per_year 150000 2014 "Jane Doe"
           new_year_world world_2024).
  reflexivity.
Defined.

(** C6, as stated, fails in its last part: at the clamp the marked and the
    unmarked owner name score the same 10, not 10 and 11. *)
Lemma joint_marker_lost_at_clamp :
  str_in "&" "John & Mary Smith" = true /\
  str_in "&" "John Smith" = false /\
  calculate_cad_lead_score 600000 2000 "John & Mary Smith" world_2024
    = Returns (10, tick world_2024) /\
  calculate_cad_lead_score 600000 2000 "John Smith" world_2024
    = Returns (10, tick world_2024) /\
  10 <> 10 + 1.
Proof. repeat split; done. Qed.

(** C6, amended. For fixed year built, owner name and clock the lead score
    is non-decreasing in the appraised value; for fixed value and owner name
    it is non-decreasing in the age of the property (the year the clock
    reports minus the year built); and an owner name containing '&' adds +1
    to the sum before the clamp, so that its score is the minimum of 10 and
    one more than the score of a name without the marker. *)
Theorem lead_score_monotone (w w' : World) (v v' y y' : Z) (o o' : string) :
  v <= v' ->
  current_year w - y <= current_year w' - y' ->
  str_in "&" o = false ->
  str_in "&" o' = true ->
  exists s sv sa sj,
    returns (calculate_cad_lead_score v y o w) s /\
    returns (calculate_cad_lead_score v' y o w) sv /\
    returns (calculate_cad_lead_score v y' o w') sa /\
    returns (calculate_cad_lead_score v y o' w) sj /\
    s <= sv /\
    s <= sa /\
    lead_score_sum (current_year w) v y o'
      = lead_score_sum (current_year w) v y o + 1 /\
    sj = Z.min (s + 1) 10.
Proof.
  intros Hv Hage Ho Ho'.
  do 4 eexists.
  repeat (split; [eexists; apply calculate_cad_lead_score_eq|]).
  pose proof (value_points_mono _ _ Hv).
  pose proof (age_points_mono _ _ Hage).
  unfold lead_score_sum, joint_points. rewrite Ho, Ho'. lia.
Qed.

Lemma lead_score_monotone_witness :
  exists s sv sa sj,
    returns (calculate_cad_lead_score 150000 2022 "Jane Doe" world_2024) s /\
    returns (calculate_cad_lead_score 250000 2022 "Jane Doe" world_2024) sv /\
    returns (calculate_cad_lead_score 150000 2010 "Jane Doe" new_year_world) sa /\
    returns (calculate_cad_lead_score 150000 2022 "Jane & Joe Doe" world_2024) sj /\
    s <= sv /\
    s <= sa /\
    lead_score_sum (current_year world_2024) 150000 2022 "Jane & Joe Doe"
      = lead_score_sum (current_year world_2024) 150000 2022 "Jane Doe" + 1 /\
    sj = Z.min (s + 1) 10.
Proof.
  apply (lead_score_monotone world_2024 new_year_world 150000 250000 2022 2010
           "Jane Doe" "Jane & Joe Doe");
    [lia | vm_compute; discriminate | reflexivity | reflexivity].
Defined.

(** C9. When the clock reads 2024, the score of (600000, 2000,
    "John & Mary Smith") is computed as 5 + 3 + 3 + 1 = 12 and returned as 10
    after the clamp, and the score of (150000, 2022, "Jane Doe") is computed
    as 5 + 0 + 0 + 0 and returned as 5. *)
Theorem lead_score_examples (w : World) :
  current_year w = 2024 ->
  (value_points 600000 = 3 /\ age_points (2024 - 2000) = 3 /\
   joint_points "John & Mary Smith" = 1 /\
   lead_score_sum (current_year w) 600000 2000 "John & Mary Smith" = 12 /\
   returns (calculate_cad_lead_score 600000 2000 "John & Mary Smith" w) 10) /\
  (value_points 150000 = 0 /\ age_points (2024 - 2022) = 0 /\
   joint_points "Jane Doe" = 0 /\
   lead_score_sum (current_year w) 150000 2022 "Jane Doe" = 5 /\
   returns (calculate_cad_lead_score 150000 2022 "Jane Doe" w) 5).
Proof.
  intros Hy.
  repeat split; try reflexivity; try (rewrite Hy; reflexivity);
    eexists; rewrite calculate_cad_lead_score_eq, Hy; reflexivity.
Qed.

Lemma lead_score_examples_witness :
  returns (calculate_cad_lead_score 600000 2000 "John & Mary Smith" world_2024) 10 /\
  returns (calculate_cad_lead_score 150000 2022 "Jane Doe" world_2024) 5.
Proof.
  destruct (lead_score_examples world_2024 eq_refl)
    as [(_ & _ & _ & _ & H1) (_ & _ & _ & _ & H2)].
  exact (conj H1 H2).
Defined.

(** ** Truncation of rationals *)

Lemma int_floor q : (0 <= q)%Q -> int q = Qfloor q.
Proof.
  destruct q as [n d]. unfold Qle, int, Qfloor. simpl. intros H.
  apply Z.quot_div_nonneg; lia.
Qed.

Lemma int_bounds q :
  (0 <= q)%Q -> (inject_Z (int q) <= q)%Q /\ (q < inject_Z (int q) + 1)%Q.
Proof.
  intros H. rewrite (int_floor q H). split; [apply Qfloor_le|].
  pose proof (Qlt_floor q) as Hlt. rewrite inject_Z_plus in Hlt. exact Hlt.
Qed.

Lemma int_ge (n : Z) q : (inject_Z n <= q)%Q -> 0 <= n -> n <= int q.
Proof.
  intros H Hn.
  assert (0 <= q)%Q as Hq.
  { eapply Qle_trans; [|exact H]. change 0%Q with (inject_Z 0). by rewrite <- Zle_Qle. }
  rewrite (int_floor q Hq). rewrite <- (Qfloor_Z n). by apply Qfloor_resp_le.
Qed.

(** ** The generator *)

Lemma base_value_range c : 150000 <= get_base_property_value c <= 450000.
Proof.
  unfold get_base_property_value. destruct (base_values !! c) as [v|] eqn:Hv; simpl; [|lia].
  apply elem_of_list_to_map_2 in Hv.
  repeat (apply elem_of_cons in Hv as [Hv|Hv]; [inversion Hv; lia|]).
  by apply elem_of_nil in Hv.
Qed.

Lemma estimated_value_pos c y sq u :
  1200 <= sq -> (0.8 <= u)%Q ->
  0 < int (inject_Z (get_base_property_value c)
           * Qmax 0.7 (1 - inject_Z (2024 - y) * 0.01)
           * (inject_Z sq / 2000) * u)%Q.
Proof.
  intros Hsq Hu.
  pose proof (base_value_range c) as [Hb _].
  rewrite Zle_Qle in Hb. rewrite Zle_Qle in Hsq.
  set (b := inject_Z (get_base_property_value c)) in *.
  pose proof (Q.le_max_l 0.7 (1 - inject_Z (2024 - y) * 0.01)) as Ha.
  set (a := Qmax _ _) in *.
  set (s := inject_Z sq) in *.
  assert (inject_Z 150000 == 150000)%Q as E1 by reflexivity.
  assert (inject_Z 1200 == 1200)%Q as E2 by reflexivity.
  rewrite E1 in Hb. rewrite E2 in Hsq.
  assert (105000 <= b * a)%Q as H1 by nra.
  assert (0.6 <= s / 2000)%Q as H2.
  { unfold Qdiv. change (/ 2000)%Q with (1 # 2000). lra. }
  assert (63000 <= b * a * (s / 2000))%Q as H3 by nra.
  assert (50400 <= b * a * (s / 2000) * u)%Q as H4 by nra.
  apply Z.lt_le_trans with 50400; [lia|].
  apply int_ge; [|lia]. exact H4.
Qed.

Lemma market_value_bounds (a : Z) (u : Q) :
  0 < a -> (0.95 <= u)%Q -> (u <= 1.05)%Q ->
  95 * a - 100 < 100 * int (inject_Z a * u) /\
  100 * int (inject_Z a * u) <= 105 * a.
Proof.
  intros Ha Hlo Hhi.
  rewrite Zlt_Qlt in Ha. change (inject_Z 0) with 0%Q in Ha.
  assert (0 <= inject_Z a * u)%Q as Hnn by nra.
  destruct (int_bounds _ Hnn) as [Hfl Hlt].
  set (m := int (inject_Z a * u)) in *.
  split.
  - enough (95 * a < 100 * m + 100) by lia.
    rewrite Zlt_Qlt, inject_Z_plus, !inject_Z_mult.
    change (inject_Z 95) with 95%Q. change (inject_Z 100) with 100%Q.
    nra.
  - rewrite Zle_Qle, !inject_Z_mult.
    change (inject_Z 105) with 105%Q. change (inject_Z 100) with 100%Q.
    nra.
Qed.

Lemma zip_pool_nonempty c : default ["75001"] (zip_ranges !! c) <> [].
Proof.
  destruct (zip_ranges !! c) as [v|] eqn:Hv; simpl; [|done].
  apply elem_of_list_to_map_2 in Hv.
  repeat (apply elem_of_cons in Hv as [Hv|Hv]; [by inversion Hv|]).
  by apply elem_of_nil in Hv.
Qed.

Lemma wp_calculate_cad_lead_score v y o w (Q : Z -> World -> Prop) :
  (forall s w', 5 <= s <= 10 -> Q s w') ->
  wp (calculate_cad_lead_score v y o) w Q.
Proof.
  intros H. unfold wp. rewrite calculate_cad_lead_score_eq. apply H.
  apply lead_score_clamped.
Qed.

Ltac wp_step :=
  lazymatch goal with
  | |- wp (_ ≫= _) _ _ => apply wp_bind
  | |- wp (mret _) _ _ => apply wp_ret
  | |- wp (random.choice _) _ _ =>
      apply wp_choice; [first [discriminate | assumption] | intros ? ? ?]
  | |- wp (random.randint _ _) _ _ => apply wp_randint; [lia | intros ? ? ?]
  | |- wp (random.uniform _ _) _ _ =>
      apply wp_uniform; [discriminate | intros ? ? ? ?]
  | |- wp random.random _ _ => apply wp_random; intros ? ? ? ?
  | |- wp (generate_zipcode_for_county _) _ _ =>
      apply wp_choice; [apply zip_pool_nonempty | intros ? ? ?]
  | |- wp (calculate_cad_lead_score _ _ _) _ _ =>
      apply wp_calculate_cad_lead_score; intros ? ? ?
  | |- wp datetime_now _ _ => apply wp_datetime_now
  | |- wp (insert_lead _ _) _ _ => apply wp_insert_lead; intros ? ?
  | |- wp (match property_types !! 0%nat with _ => _ end) _ _ =>
      change (property_types !! 0%nat) with (Some "Single Family Residence");
      cbv iota beta
  | |- wp (if ?b then _ else _) _ _ => destruct b
  end.

Lemma sample_property_spec c data w :
  major_cities data <> [] ->
  wp (sample_property c data) w (fun p _ => generated_ok c p).
Proof.
  intros Hcities. unfold sample_property. cbv zeta.
  repeat wp_step.
  all: unfold generated_ok; cbn [county appraised_value market_value].
  all: split; [reflexivity|].
  all: match goal with
       | |- 0 < ?est /\ _ =>
           assert (0 < est) as Hpos by (apply estimated_value_pos; [lia|assumption]);
           split; [exact Hpos|]
       end.
  all: split; [eexists; split; [|split; [|reflexivity]]; assumption|].
  all: apply market_value_bounds; assumption.
Qed.

Lemma property_count_clamp pop :
  property_count pop = clamp (pop / 100000) 5 15.
Proof.
  unfold property_count, clamp, int. simpl. rewrite Z.mul_1_r.
  change (Z.pos (1 * 100000)) with 100000.
  destruct (Z_le_gt_dec 0 pop) as [Hp|Hp]; [rewrite Z.quot_div_nonneg by lia; done|].
  assert (pop ÷ 100000 <= 0) as Hq.
  { replace pop with (- (- pop)) by lia. rewrite Z.quot_opp_l by lia.
    pose proof (Z.quot_pos (- pop) 100000). lia. }
  assert (pop / 100000 < 0) as Hd by (apply Z.div_lt_upper_bound; lia).
  rewrite !Z.max_r by lia. done.
Qed.

Lemma county_loop_spec c data n s0 w :
  major_cities data <> [] ->
  wp (for_each (seqZ 0 n) (fun (i : Z) sample_properties =>
        property_data ← sample_property c data;
        _ ← insert_lead "cad_leads" (supabase_data property_data);
        mret (sample_properties ++ [property_data])%list) s0) w
     (fun s' _ => exists seg,
        s' = (s0 ++ seg)%list /\ length seg = Z.to_nat n /\
        Forall (generated_ok c) seg).
Proof.
  intros Hc.
  eapply wp_mono.
  - apply (wp_for_each (fun k s => exists seg,
             s = (s0 ++ seg)%list /\ length seg = k /\ Forall (generated_ok c) seg)).
    + exists []. by rewrite app_nil_r.
    + intros k i s w1 _ (seg & -> & Hlen & Hok).
      apply wp_bind.
      eapply wp_mono; [by apply sample_property_spec|].
      intros p w2 Hp. apply wp_bind, wp_insert_lead. intros b w3. apply wp_ret.
      exists (seg ++ [p])%list. rewrite app_assoc, length_app, Forall_app. simpl.
      repeat split; [lia|done|by constructor].
  - intros s' w' (seg & -> & Hlen & Hok). exists seg.
    by rewrite length_seqZ in Hlen.
Qed.

Lemma cities_nonempty : Forall (fun cd => major_cities cd.2 <> []) texas_cads.
Proof. repeat constructor; discriminate. Qed.

Lemma create_texas_cad_sample_data_spec w :
  wp create_texas_cad_sample_data w
     (fun ps _ => exists segs, ps = concat segs /\ segments_ok texas_cads segs).
Proof.
  unfold create_texas_cad_sample_data. cbv zeta.
  eapply wp_mono.
  - apply (wp_for_each (fun k s => exists segs,
             s = concat segs /\ segments_ok (take k texas_cads) segs)).
    + exists []. split; [done|constructor].
    + intros k [c data] s w1 Hk (segs & -> & Hok).
      assert (major_cities data <> []) as Hc.
      { apply list_elem_of_lookup_2 in Hk.
        pose proof cities_nonempty as HF. rewrite Forall_forall in HF.
        apply (HF _ Hk). }
      eapply wp_mono; [apply (county_loop_spec c data _ (concat segs) w1 Hc)|].
      intros s' w2 (seg & -> & Hlen & Hseg).
      exists (segs ++ [seg])%list. split.
      * rewrite concat_app. simpl. by rewrite app_nil_r.
      * rewrite (take_S_r _ _ _ Hk). apply Forall2_app; [done|].
        constructor; [|constructor]. done.
  - intros ps w' (segs & -> & Hok). exists segs. split; [done|].
    by rewrite firstn_all in Hok.
Qed.



(** ** Records per county *)

Lemma filter_county_all c seg :
  Forall (generated_ok c) seg -> filter (fun p => county p = c) seg = seg.
Proof.
  induction 1 as [|p seg [Hp _] _ IH]; [done|].
  rewrite filter_cons_True by done. by rewrite IH.
Qed.

Lemma filter_county_none c name seg :
  c <> name ->
  Forall (generated_ok c) seg -> filter (fun p => county p = name) seg = [].
Proof.
  intros Hne. induction 1 as [|p seg [Hp _] _ IH]; [done|].
  rewrite filter_cons_False by congruence. done.
Qed.

Lemma filter_segments_none cads segs name :
  segments_ok cads segs -> name ∉ cads.*1 ->
  filter (fun p => county p = name) (concat segs) = [].
Proof.
  induction 1 as [|[c d] seg cads segs [_ Hseg] _ IH]; [done|].
  simpl. intros Hnot. apply not_elem_of_cons in Hnot as [Hne Hnot].
  rewrite filter_app, (filter_county_none c name) by done. by rewrite IH.
Qed.

Lemma count_in_segments cads segs name data :
  segments_ok cads segs -> NoDup cads.*1 -> (name, data) ∈ cads ->
  length (filter (fun p => county p = name) (concat segs))
  = Z.to_nat (property_count (population data)).
Proof.
  induction 1 as [|[c d] seg cads segs [Hlen Hseg] Hrest IH]; intros Hnd Hin.
  - by apply elem_of_nil in Hin.
  - simpl in *. apply NoDup_cons in Hnd as [Hc Hnd].
    rewrite filter_app, length_app.
    apply elem_of_cons in Hin as [Heq|Hin].
    + inversion Heq; subst c d.
      rewrite filter_county_all by done.
      rewrite (filter_segments_none cads segs name) by done. simpl. lia.
    + assert (c <> name) as Hne.
      { intros ->. apply Hc. apply list_elem_of_fmap. by exists (name, data). }
      rewrite (filter_county_none c name) by done. simpl. by apply IH.
Qed.

Lemma texas_cads_keys_NoDup : NoDup texas_cads.*1.
Proof. compute_done. Qed.

(** C7. Whatever the random source yields, the batch is produced, and for
    every county of the table the number of records tagged with it equals
    clamp(population / 100000, 5, 15) with integer division; for Montgomery
    County, whose population is 620443, that number is 6. *)
Theorem records_per_county (w : World) :
  exists ps,
    returns (create_texas_cad_sample_data w) ps /\
    (forall name data, (name, data) ∈ texas_cads ->
       Z.of_nat (length (filter (fun p => county p = name) ps))
       = clamp (population data / 100000) 5 15) /\
    (exists data, (("Montgomery County", data) ∈ texas_cads) /\
       population data = 620443 /\
       clamp (620443 / 100000) 5 15 = 6 /\
       length (filter (fun p => county p = "Montgomery County") ps) = 6%nat).
Proof.
  destruct (wp_returns _ _ _ (create_texas_cad_sample_data_spec w))
    as (ps & w' & Hrun & segs & -> & Hsegs).
  exists (concat segs). split; [by exists w'|].
  assert (forall name data, (name, data) ∈ texas_cads ->
            Z.of_nat (length (filter (fun p => county p = name) (concat segs)))
            = clamp (population data / 100000) 5 15) as Hcount.
  { intros name data Hin.
    rewrite (count_in_segments _ _ _ _ Hsegs texas_cads_keys_NoDup Hin).
    rewrite property_count_clamp. unfold clamp. lia. }
  split; [exact Hcount|].
  set (data := mkCadInfo "https://mctx.org" 620443
                        ["Conroe"; "The Woodlands"; "Spring"; "Tomball"]).
  assert (("Montgomery County", data) ∈ texas_cads) as Hin.
  { do 9 apply list_elem_of_further. apply list_elem_of_here. }
  exists data. repeat split; [exact Hin|].
  apply Nat2Z.inj. by rewrite (Hcount _ _ Hin).
Qed.

(** ** Unknown counties *)

(** C2, as stated, fails: Loving County is not in the table, yet both
    lookups answer with their defaults and a record is generated for it. *)
Lemma unknown_county_not_rejected :
  ("Loving County" ∉ texas_cads.*1) /\
  generate_zipcode_for_county "Loving County" world_2024
    = Returns ("75001", drawn world_2024) /\
  get_base_property_value "Loving County" = 250000 /\
  (exists p,
     value_of (sample_property "Loving County"
                 (mkCadInfo "https://example.org" 64 ["Mentone"]) world_2024)
       = Some p /\
     zipcode p = "75001" /\ appraised_value p = 84000).
Proof.
  split; [compute_done|].
  split; [reflexivity|]. split; [reflexivity|].
  eexists. split; [vm_compute; reflexivity|]. split; reflexivity.
Qed.

(** C2, amended. For a county name that is not in the table nothing fails:
    the ZIP is drawn from the one-element default pool, so it is 75001, and
    the base property value is the default 250000. *)
Theorem unknown_county_defaults (c : string) (w : World) :
  c ∉ texas_cads.*1 ->
  generate_zipcode_for_county c w = Returns ("75001", drawn w) /\
  get_base_property_value c = 250000.
Proof.
  intros Hc.
  assert (zip_ranges !! c = None) as Hz by (by apply not_elem_of_list_to_map_1).
  assert (base_values !! c = None) as Hb by (by apply not_elem_of_list_to_map_1).
  unfold generate_zipcode_for_county, get_base_property_value.
  rewrite Hz, Hb. split; [|reflexivity].
  change (default ["75001"] None) with ["75001"].
  unfold random.choice, random.randbelow, mbind, M_bind, next_raw, mret, M_ret.
  change (Z.of_nat (length ["75001"])) with 1. rewrite Z.mod_1_r. reflexivity.
Qed.

Lemma unknown_county_defaults_witness :
  generate_zipcode_for_county "Loving County" world_2024
    = Returns ("75001", drawn world_2024) /\
  get_base_property_value "Loving County" = 250000.
Proof.
  apply (unknown_county_defaults "Loving County" world_2024). compute_done.
Defined.

(** ** The aggregator *)

Lemma count_values_cons P p props :
  count_values P (p :: props)
  = (if P (appraised_value p) then 1 else 0) + count_values P props.
Proof.
  unfold count_values. destruct (P (appraised_value p)) eqn:HP.
  - rewrite filter_cons_True by done. simpl length. lia.
  - rewrite filter_cons_False by (rewrite HP; done). lia.
Qed.

Lemma incr_eq k d x w :
  d !! k = Some x -> incr k d w = Returns (<[k := x + 1]> d, w).
Proof. intros Hk. unfold incr. by rewrite Hk. Qed.

Lemma dom_incr k (d : gmap string Z) x y :
  d !! k = Some x -> dom (<[k := y]> d) = dom d.
Proof.
  intros Hk. apply elem_of_dom_2 in Hk. rewrite dom_insert_L.
  apply subseteq_union_1_L. by apply singleton_subseteq_l.
Qed.

Lemma bucket_step_spec value vr a b c d w :
  vr !! "under_200k" = Some a ->
  vr !! "200k_400k" = Some b ->
  vr !! "400k_600k" = Some c ->
  vr !! "over_600k" = Some d ->
  exists vr',
    bucket_step value vr w = Returns (vr', w) /\
    vr' !! "under_200k" = Some (a + if value <? 200000 then 1 else 0) /\
    vr' !! "200k_400k"
      = Some (b + if (200000 <=? value) && (value <? 400000) then 1 else 0) /\
    vr' !! "400k_600k"
      = Some (c + if (400000 <=? value) && (value <? 600000) then 1 else 0) /\
    vr' !! "over_600k" = Some (d + if 600000 <=? value then 1 else 0) /\
    dom vr' = dom vr.
Proof.
  intros Ha Hb Hc Hd. unfold bucket_step.
  destruct (Z.ltb_spec value 200000) as [H2|H2];
    [|destruct (Z.ltb_spec value 400000) as [H4|H4];
      [|destruct (Z.ltb_spec value 600000) as [H6|H6]]].
  all: eexists; split; [by apply incr_eq|].
  all: rewrite ?lookup_insert_eq, ?lookup_insert_ne by done.
  all: destruct (Z.leb_spec 200000 value); try lia.
  all: destruct (Z.leb_spec 400000 value); try lia.
  all: destruct (Z.leb_spec 600000 value); try lia.
  all: destruct (Z.ltb_spec value 400000); try lia.
  all: destruct (Z.ltb_spec value 600000); try lia.
  all: simpl andb; rewrite ?Z.add_0_r.
  all: repeat split; try done; by eapply dom_incr.
Qed.

Lemma tier_step_spec score ls h m l w :
  ls !! "high" = Some h ->
  ls !! "medium" = Some m ->
  ls !! "low" = Some l ->
  exists ls' h' m' l',
    tier_step score ls w = Returns (ls', w) /\
    ls' !! "high" = Some h' /\ ls' !! "medium" = Some m' /\ ls' !! "low" = Some l'.
Proof.
  intros Hh Hm Hl. unfold tier_step.
  destruct (score >=? 8); [|destruct (score >=? 6)].
  all: do 4 eexists; split; [by apply incr_eq|].
  all: rewrite ?lookup_insert_eq, ?lookup_insert_ne by done; done.
Qed.

Lemma stats_loop props : forall v w a b c d h m l,
  value_ranges v !! "under_200k" = Some a ->
  value_ranges v !! "200k_400k" = Some b ->
  value_ranges v !! "400k_600k" = Some c ->
  value_ranges v !! "over_600k" = Some d ->
  lead_scores v !! "high" = Some h ->
  lead_scores v !! "medium" = Some m ->
  lead_scores v !! "low" = Some l ->
  exists v',
    for_each props stats_step v w = Returns (v', w) /\
    value_ranges v' !! "under_200k"
      = Some (a + count_values (fun x => x <? 200000) props) /\
    value_ranges v' !! "200k_400k"
      = Some (b + count_values (fun x => (200000 <=? x) && (x <? 400000)) props) /\
    value_ranges v' !! "400k_600k"
      = Some (c + count_values (fun x => (400000 <=? x) && (x <? 600000)) props) /\
    value_ranges v' !! "over_600k"
      = Some (d + count_values (fun x => 600000 <=? x) props) /\
    dom (value_ranges v') = dom (value_ranges v).
Proof.
  induction props as [|p props IH]; intros v w a b c d h m l Ha Hb Hc Hd Hh Hm Hl.
  - exists v. unfold count_values. simpl. rewrite !Z.add_0_r. done.
  - destruct (bucket_step_spec (appraised_value p) _ _ _ _ _ w Ha Hb Hc Hd)
      as (vr' & Hvr & Ha1 & Hb1 & Hc1 & Hd1 & Hdom).
    destruct (tier_step_spec (lead_score p) _ _ _ _ w Hh Hm Hl)
      as (ls' & h' & m' & l' & Hls & Hh1 & Hm1 & Hl1).
    set (v1 := {| counties :=
                    <[county p := default 0 (counties v !! county p) + 1]> (counties v);
                  value_ranges := vr';
                  lead_scores := ls';
                  homestead_count :=
                    if homestead_exemption p then homestead_count v + 1
                    else homestead_count v;
                  total_value := total_value v + appraised_value p |}).
    assert (stats_step p v w = Returns (v1, w)) as Hstep.
    { unfold stats_step, mbind, M_bind. cbv zeta.
      fold (bucket_step (appraised_value p) (value_ranges v)).
      fold (tier_step (lead_score p) (lead_scores v)).
      rewrite Hvr, Hls. reflexivity. }
    destruct (IH v1 w _ _ _ _ _ _ _ Ha1 Hb1 Hc1 Hd1 Hh1 Hm1 Hl1)
      as (v' & Hrun & Ha' & Hb' & Hc' & Hd' & Hdom').
    exists v'. simpl for_each. unfold mbind at 1, M_bind at 1. rewrite Hstep.
    rewrite !count_values_cons, !Z.add_assoc.
    rewrite Hdom'. done.
Qed.


Lemma get_cad_stats_nonempty self w :
  all_properties self <> [] ->
  exists v,
    for_each (all_properties self) stats_step stats_init w = Returns (v, w) /\
    get_cad_stats self w =
    Returns (list_to_map
      [ ("total_properties", SInt (Z.of_nat (length (all_properties self))));
        ("total_appraised_value", SInt (total_value v));
        ("average_value",
         SInt (int (inject_Z (total_value v)
                    / inject_Z (Z.of_nat (length (all_properties self))))));
        ("counties", SCounts (counties v));
        ("value_ranges", SCounts (value_ranges v));
        ("lead_scores", SCounts (lead_scores v));
        ("homestead_properties", SInt (homestead_count v));
        ("scraped_at", SStr (isoformat (clock w (clock_pos w)))) ], tick w).
Proof.
  intros Hne.
  destruct (stats_loop (all_properties self) stats_init w 0 0 0 0 0 0 0)
    as (v & Hrun & _); try reflexivity.
  exists v. split; [done|].
  unfold get_cad_stats.
  destruct (all_properties self) as [|p props] eqn:Hprops; [done|].
  unfold mbind, M_bind. rewrite Hrun.
  unfold lift, truediv.
  destruct (Z.eqb_spec (Z.of_nat (length (p :: props))) 0) as [H0|H0];
    [simpl in H0; lia|].
  reflexivity.
Qed.

(** C1, as stated, fails: on the empty record set the result has no
    [total_properties] and no [average_value] entry, hence neither is 0. *)
Lemma empty_stats_has_no_entries :
  exists stats,
    get_cad_stats init world_2024 = Returns (stats, world_2024) /\
    stats !! "total_properties" = None /\
    stats !! "average_value" = None /\
    stats !! "total_properties" <> Some (SInt 0) /\
    stats !! "average_value" <> Some (SInt 0).
Proof. exists ∅. repeat split; done. Qed.

(** C1, amended. When the accumulated record set is empty, the aggregator
    returns the empty dictionary and leaves the world as it was: no entry is
    present, a reader that defaults a missing entry to 0 sees 0 for every
    key, and no exception (in particular no division by zero) is raised. *)
Theorem get_cad_stats_empty (w : World) :
  get_cad_stats (mkTexasCADScraper []) w = Returns (∅, w) /\
  (forall key, (∅ : gmap string stat) !! key = None) /\
  (forall key, stats_get ∅ key = SInt 0).
Proof. repeat split; done. Qed.



(** ** The exporter *)

(** C10. When the accumulated record set is empty, [save_to_csv] returns
    normally and leaves the world, hence the file system, exactly as it
    was: no file is created or written. The read of the first record's field
    names, which raises IndexError on an empty list, is not reached. *)
Theorem save_to_csv_empty (filename : string) (w : World) :
  save_to_csv (mkTexasCADScraper []) filename w = Returns (tt, w) /\
  (forall w', save_to_csv (mkTexasCADScraper []) filename w = Returns (tt, w') ->
              files w' = files w) /\
  first_fieldnames [] w = Raises IndexError.
Proof.
  split; [reflexivity|]. split; [|reflexivity].
  intros w' Hw'. by injection Hw' as <-.
Qed.

(** On a non-empty record set the file is written: the header is the key
    list of the first record, followed by one row per record. *)
Lemma save_to_csv_nonempty self filename w :
  all_properties self <> [] ->
  exists w' first,
    save_to_csv self filename w = Returns (tt, w') /\
    head (all_properties self) = Some first /\
    files w' !! filename
      = Some (mkCsvFile (map fst (items first))
                        (map (fun p => map snd (items p)) (all_properties self))).
Proof.
  intros Hne. unfold save_to_csv.
  destruct (all_properties self) as [|p props]; [done|].
  do 2 eexists. split; [reflexivity|]. split; [reflexivity|].
  simpl. by rewrite lookup_insert_eq.
Qed.

(** * Further properties *)

(** ** Worlds between calls *)

Lemma frame_refl w : frame w w.
Proof. repeat split; lia. Qed.

Lemma frame_drawn w0 w : frame w0 w -> frame w0 (drawn w).
Proof. intros (?&?&?&?&?&?&?). repeat split; simpl; try done; lia. Qed.

Lemma frame_tick w0 w : frame w0 w -> frame w0 (tick w).
Proof. intros (?&?&?&?&?&?&?). repeat split; simpl; try done; lia. Qed.

Lemma wpf_next_raw w0 w (Q : nat -> World -> Prop) :
  frame w0 w -> (forall k w', frame w0 w' -> Q k w') -> wp next_raw w Q.
Proof. intros Hf H. apply H. by apply frame_drawn. Qed.

Lemma wpf_randbelow w0 n w (Q : Z -> World -> Prop) :
  frame w0 w -> 0 < n ->
  (forall k w', frame w0 w' -> 0 <= k < n -> Q k w') ->
  wp (random.randbelow n) w Q.
Proof.
  intros Hf Hn H. apply wp_bind, (wpf_next_raw w0); [done|].
  intros k w' Hf'. apply wp_ret, H; [done|]. apply Z.mod_pos_bound, Hn.
Qed.

Lemma wpf_randint w0 a b w (Q : Z -> World -> Prop) :
  frame w0 w -> a <= b ->
  (forall k w', frame w0 w' -> a <= k <= b -> Q k w') ->
  wp (random.randint a b) w Q.
Proof.
  intros Hf Hab H. apply wp_bind, (wpf_randbelow w0); [done|lia|].
  intros k w' Hf' Hk. apply wp_ret, H; [done|lia].
Qed.

Lemma wpf_random w0 w (Q : Q -> World -> Prop) :
  frame w0 w ->
  (forall r w', frame w0 w' -> (0 <= r)%Q -> (r < 1)%Q -> Q r w') ->
  wp random.random w Q.
Proof.
  intros Hf H. apply wp_bind, (wpf_next_raw w0); [done|].
  intros k w' Hf'. apply wp_ret.
  pose proof (Z.mod_pos_bound (Z.of_nat k) (2 ^ 53) eq_refl) as [Hlo Hhi].
  apply H; [done| |]; unfold Qle, Qlt; simpl; lia.
Qed.

Lemma wpf_uniform w0 a b w (Q : Q -> World -> Prop) :
  frame w0 w -> (a <= b)%Q ->
  (forall u w', frame w0 w' -> (a <= u)%Q -> (u <= b)%Q -> Q u w') ->
  wp (random.uniform a b) w Q.
Proof.
  intros Hf Hab H. apply wp_bind, (wpf_random w0); [done|].
  intros r w' Hf' Hr0 Hr1. apply wp_ret, H; [done| |]; nra.
Qed.

Lemma wpf_choice {A} w0 (seq : list A) w (Q : A -> World -> Prop) :
  frame w0 w -> seq <> [] ->
  (forall x w', frame w0 w' -> x ∈ seq -> Q x w') ->
  wp (random.choice seq) w Q.
Proof.
  intros Hf Hne H. unfold random.choice. destruct seq as [|x0 seq']; [done|].
  set (seq := x0 :: seq') in *.
  apply wp_bind, (wpf_randbelow w0); [done|subst seq; simpl; lia|].
  intros i w' Hf' Hi.
  destruct (seq !! Z.to_nat i) as [x|] eqn:Hx.
  - apply wp_ret, H; [done|]. by apply list_elem_of_lookup_2 in Hx.
  - apply lookup_ge_None in Hx. lia.
Qed.

Lemma wpf_datetime_now w0 w (Q : DateTime -> World -> Prop) :
  frame w0 w ->
  (forall k w', frame w0 w' -> Q (clock w0 k) w') ->
  wp datetime_now w Q.
Proof.
  intros Hf H. apply wp_datetime_now.
  pose proof Hf as (_ & Hc & _). rewrite Hc. apply H.
  by apply frame_tick.
Qed.

Lemma wpf_calculate_cad_lead_score w0 v y o w (Q : Z -> World -> Prop) :
  frame w0 w ->
  (forall k w', frame w0 w' ->
     Q (Z.min (lead_score_sum (year (clock w0 k)) v y o) 10) w') ->
  wp (calculate_cad_lead_score v y o) w Q.
Proof.
  intros Hf H. unfold wp. rewrite calculate_cad_lead_score_eq.
  unfold current_year. pose proof Hf as (_ & Hc & _). rewrite Hc. apply H.
  by apply frame_tick.
Qed.

(** ** Bounds of the generated numbers *)

Lemma int_le (n : Z) q : (0 <= q)%Q -> (q < inject_Z n + 1)%Q -> int q <= n.
Proof.
  intros Hq Hn. destruct (int_bounds q Hq) as [Hfl _].
  assert (inject_Z (int q) < inject_Z (n + 1))%Q as Hlt.
  { rewrite inject_Z_plus. eapply Qle_lt_trans; [exact Hfl|exact Hn]. }
  rewrite <- Zlt_Qlt in Hlt. lia.
Qed.

Lemma estimated_value_range c y sq u :
  1975 <= y <= 2023 -> 1200 <= sq <= 4500 -> (0.8 <= u)%Q -> (u <= 1.3)%Q ->
  50400 <= int (inject_Z (get_base_property_value c)
                * Qmax 0.7 (1 - inject_Z (2024 - y) * 0.01)
                * (inject_Z sq / 2000) * u)%Q <= 1303087.
Proof.
  intros Hy [Hsq1 Hsq2] Hu1 Hu2.
  pose proof (base_value_range c) as [Hb1 Hb2].
  rewrite Zle_Qle in Hb1, Hb2, Hsq1, Hsq2.
  set (b := inject_Z (get_base_property_value c)) in *.
  assert (0.7 <= Qmax 0.7 (1 - inject_Z (2024 - y) * 0.01))%Q as Ha1
    by apply Q.le_max_l.
  assert (Qmax 0.7 (1 - inject_Z (2024 - y) * 0.01) <= 0.99)%Q as Ha2.
  { apply Q.max_lub; [discriminate|].
    assert (inject_Z 1 <= inject_Z (2024 - y))%Q as Hage
      by (rewrite <- Zle_Qle; lia).
    change (inject_Z 1) with 1%Q in Hage. lra. }
  set (a := Qmax _ _) in *.
  set (s := inject_Z sq) in *.
  change (inject_Z 150000) with 150000%Q in Hb1.
  change (inject_Z 450000) with 450000%Q in Hb2.
  change (inject_Z 1200) with 1200%Q in Hsq1.
  change (inject_Z 4500) with 4500%Q in Hsq2.
  assert (0.6 <= s / 2000)%Q as Hs1.
  { unfold Qdiv. change (/ 2000)%Q with (1 # 2000). lra. }
  assert (s / 2000 <= 2.25)%Q as Hs2.
  { unfold Qdiv. change (/ 2000)%Q with (1 # 2000). lra. }
  set (z := (s / 2000)%Q) in *.
  assert (105000 <= b * a)%Q by nra.
  assert (b * a <= 445500)%Q by nra.
  assert (63000 <= b * a * z)%Q by nra.
  assert (b * a * z <= 1002375)%Q by nra.
  assert (50400 <= b * a * z * u)%Q by nra.
  assert (b * a * z * u <= 1303087.5)%Q by nra.
  split.
  - apply int_ge; [|lia]. done.
  - apply int_le; [lra|].
    change (inject_Z 1303087) with 1303087%Q. lra.
Qed.

Lemma sale_price_bounds (a : Z) (u : Q) :
  0 < a -> (0.85 <= u)%Q -> (u <= 1.15)%Q ->
  85 * a - 100 < 100 * int (inject_Z a * u) /\
  100 * int (inject_Z a * u) <= 115 * a.
Proof.
  intros Ha Hlo Hhi.
  rewrite Zlt_Qlt in Ha. change (inject_Z 0) with 0%Q in Ha.
  assert (0 <= inject_Z a * u)%Q as Hnn by nra.
  destruct (int_bounds _ Hnn) as [Hfl Hlt].
  set (m := int (inject_Z a * u)) in *.
  split.
  - enough (85 * a < 100 * m + 100) by lia.
    rewrite Zlt_Qlt, inject_Z_plus, !inject_Z_mult.
    change (inject_Z 85) with 85%Q. change (inject_Z 100) with 100%Q.
    nra.
  - rewrite Zle_Qle, !inject_Z_mult.
    change (inject_Z 115) with 115%Q. change (inject_Z 100) with 100%Q.
    nra.
Qed.

Lemma round2_range x :
  (0.15 <= x)%Q -> (x <= 1.2)%Q ->
  (0.15 <= round2 x)%Q /\ (round2 x <= 1.2)%Q.
Proof.
  intros Hlo Hhi. unfold round2.
  set (y := (x * 100)%Q).
  assert (15 <= y)%Q as Hy1 by (unfold y; lra).
  assert (y <= 120)%Q as Hy2 by (unfold y; lra).
  pose proof (Qfloor_le y) as Hf1.
  pose proof (Qlt_floor y) as Hf2.
  assert (15 <= Qfloor y) as Hf15.
  { rewrite <- (Qfloor_Z 15). by apply Qfloor_resp_le. }
  assert (Qfloor y <= 120) as Hf120.
  { rewrite <- (Qfloor_Z 120). by apply Qfloor_resp_le. }
  set (f := Qfloor y) in *.
  rewrite inject_Z_plus in Hf2. change (inject_Z 1) with 1%Q in Hf2.
  assert (forall n, 15 <= n <= 120 ->
            (0.15 <= inject_Z n / 100)%Q /\ (inject_Z n / 100 <= 1.2)%Q) as Hn.
  { intros n [Hn1 Hn2]. rewrite Zle_Qle in Hn1, Hn2.
    change (inject_Z 15) with 15%Q in Hn1.
    change (inject_Z 120) with 120%Q in Hn2.
    unfold Qdiv. change (/ 100)%Q with (1 # 100). lra. }
  assert (f = 120 -> (2 * (y - inject_Z f) < 1)%Q) as Htop.
  { intros ->. change (inject_Z 120) with 120%Q in *. lra. }
  destruct (Qcompare_spec (2 * (y - inject_Z f)) 1) as [He|Hl|Hg].
  - destruct (Z.even f); apply Hn; [lia|].
    destruct (Z.eq_dec f 120) as [E|E]; [|lia].
    specialize (Htop E). lra.
  - apply Hn. lia.
  - apply Hn. destruct (Z.eq_dec f 120) as [E|E]; [|lia].
    specialize (Htop E). lra.
Qed.

(** ** The joint-ownership marker in generated names *)

Lemma str_in_amp_app a b :
  str_in "&" (a +:+ b) = str_in "&" a || str_in "&" b.
Proof.
  induction a as [|ch a IH]; [done|].
  change (String ch a +:+ b) with (String ch (a +:+ b)).
  cbn [str_in String.prefix]. rewrite IH.
  match goal with |- context [Ascii.ascii_dec ?c ch] =>
    destruct (Ascii.ascii_dec c ch) end; [|done].
  by destruct (a +:+ b), a.
Qed.

Lemma first_names_plain : Forall (fun n => str_in "&" n = false) first_names.
Proof. repeat constructor. Qed.

Lemma last_names_plain : Forall (fun n => str_in "&" n = false) last_names.
Proof. repeat constructor. Qed.

Lemma owner_shape_marker name :
  owner_shape name ->
  (str_in "&" name = false /\
   exists f l, f ∈ first_names /\ l ∈ last_names /\ name = f +:+ " " +:+ l) \/
  (str_in "&" name = true /\
   exists f s l, f ∈ first_names /\ s ∈ first_names /\ l ∈ last_names /\
     name = f +:+ " & " +:+ s +:+ " " +:+ l).
Proof.
  intros (f & l & Hf & Hl & [->|(s & Hs & ->)]).
  - left. split; [|by exists f, l].
    pose proof first_names_plain as HF. pose proof last_names_plain as HL.
    rewrite Forall_forall in HF, HL.
    rewrite !str_in_amp_app, (HF f Hf), (HL l Hl). done.
  - right. split; [|by exists f, s, l].
    rewrite !str_in_amp_app. simpl. by rewrite orb_true_r.
Qed.

(** ** The fields of a generated record *)

Ltac wpf_step w0 :=
  lazymatch goal with
  | |- wp (_ ≫= _) _ _ => apply wp_bind
  | |- wp (mret _) _ _ => apply wp_ret
  | |- wp (random.choice _) _ _ =>
      apply (wpf_choice w0);
      [assumption | first [discriminate | assumption] | intros ? ? ? ?]
  | |- wp (random.randint _ _) _ _ =>
      apply (wpf_randint w0); [assumption | lia | intros ? ? ? ?]
  | |- wp (random.uniform _ _) _ _ =>
      apply (wpf_uniform w0); [assumption | discriminate | intros ? ? ? ? ?]
  | |- wp random.random _ _ =>
      apply (wpf_random w0); [assumption | intros ? ? ? ? ?]
  | |- wp (generate_zipcode_for_county _) _ _ =>
      apply (wpf_choice w0);
      [assumption | apply zip_pool_nonempty | intros ? ? ? ?]
  | |- wp (calculate_cad_lead_score _ _ _) _ _ =>
      apply (wpf_calculate_cad_lead_score w0); [assumption | intros ? ? ?]
  | |- wp datetime_now _ _ =>
      apply (wpf_datetime_now w0); [assumption | intros ? ? ?]
  | |- wp (match property_types !! 0%nat with _ => _ end) _ _ =>
      change (property_types !! 0%nat) with (Some "Single Family Residence");
      cbv iota beta
  | |- wp (if ?b then _ else _) _ _ => destruct b
  end.

Ltac owner_shape_solve :=
  match goal with
  | Hf : ?f ∈ first_names, Hl : ?l ∈ last_names |- owner_shape _ =>
      exists f, l; split; [exact Hf|split; [exact Hl|]];
      first [ left; reflexivity
            | right;
              match goal with
              | Hs : ?s ∈ first_names |- _ =>
                  exists s; split; [exact Hs|reflexivity]
              end ]
  end.

Lemma sample_property_fields c data w :
  major_cities data <> [] ->
  wp (sample_property c data) w
     (fun p w' => generated_fields (clock w) c data p /\ frame w w').
Proof.
  intros Hcities. pose proof (frame_refl w) as Hw.
  unfold sample_property. cbv zeta.
  repeat wpf_step w.
  all: split; [|assumption].
  all: constructor;
    cbn [county city zipcode property_type year_built square_feet
         lot_size_acres appraised_value last_sale_price owner_name
         property_address cad_url account_number lead_score data_source
         scraped_at].
  all: try reflexivity; try assumption.
  all: try (apply round2_range; assumption).
  all: try (apply estimated_value_range; assumption).
  all: try (apply sale_price_bounds; [|assumption|assumption];
            eapply Z.lt_le_trans;
            [|apply estimated_value_range; eassumption]; lia).
  all: try owner_shape_solve.
  all: try (refine (ex_intro _ _ (ex_intro _ _ (conj _ (conj _ eq_refl))));
            assumption).
  all: eexists; reflexivity.
Qed.

(** ** The batch and the sink *)

(** Loop rule with an invariant over the variables and the world. *)
Lemma wp_for_each_world {A St} (Inv : nat -> St -> World -> Prop)
    (xs : list A) (body : A -> St -> M St) s w :
  Inv 0%nat s w ->
  (forall k x s w, xs !! k = Some x -> Inv k s w ->
     wp (body x s) w (Inv (S k))) ->
  wp (for_each xs body s) w (Inv (length xs)).
Proof.
  revert Inv s w. induction xs as [|x xs IH]; intros Inv s w H0 Hstep.
  - by apply wp_ret.
  - simpl. apply wp_bind.
    eapply wp_mono; [apply (Hstep 0%nat x s w); done|].
    intros s' w' Hs'.
    apply (IH (fun k => Inv (S k))); [done|].
    intros k y s'' w'' Hy. by apply (Hstep (S k)).
Qed.

Lemma forwards_refl w : forwards w [] w.
Proof. unfold forwards. simpl. by rewrite app_nil_r. Qed.

Lemma county_loop_fields c data n s0 w :
  major_cities data <> [] ->
  wp (for_each (seqZ 0 n) (fun (i : Z) sample_properties =>
        property_data ← sample_property c data;
        _ ← insert_lead "cad_leads" (supabase_data property_data);
        mret (sample_properties ++ [property_data])%list) s0) w
     (fun s' w' => exists seg,
        s' = (s0 ++ seg)%list /\ length seg = Z.to_nat n /\
        Forall (generated_fields (clock w) c data) seg /\
        forwards w seg w').
Proof.
  intros Hc.
  eapply wp_mono.
  - apply (wp_for_each_world (fun k s w' => exists seg,
             s = (s0 ++ seg)%list /\ length seg = k /\
             Forall (generated_fields (clock w) c data) seg /\
             forwards w seg w')).
    + exists []. rewrite app_nil_r. repeat split; try done. apply forwards_refl.
    + intros k i s w1 _ (seg & -> & Hlen & Hok & Hlog & Hfiles & Hrng & Hclk & Hrep).
      apply wp_bind.
      eapply wp_mono; [by apply sample_property_fields|].
      intros p w2 [Hp (Hr2 & Hc2 & Hs2 & Hl2 & Hf2 & _)].
      apply wp_bind. unfold wp at 1, insert_lead. apply wp_ret.
      exists (seg ++ [p])%list. rewrite app_assoc, length_app, Forall_app.
      split; [done|]. split; [simpl; lia|]. split.
      * split; [done|]. constructor; [|done]. by rewrite <- Hclk.
      * unfold forwards. simpl. rewrite map_app, app_assoc. simpl.
        rewrite Hl2, Hlog, Hf2, Hfiles, Hr2, Hrng, Hc2, Hclk, Hs2, Hrep. done.
  - intros s' w' (seg & -> & Hlen & Hok). exists seg.
    by rewrite length_seqZ in Hlen.
Qed.

Lemma create_texas_cad_sample_data_fields w :
  wp create_texas_cad_sample_data w
     (fun ps w' => exists segs,
        ps = concat segs /\
        segmented (generated_fields (clock w)) texas_cads segs /\
        forwards w ps w').
Proof.
  unfold create_texas_cad_sample_data. cbv zeta.
  eapply wp_mono.
  - apply (wp_for_each_world (fun k s w' => exists segs,
             s = concat segs /\
             segmented (generated_fields (clock w)) (take k texas_cads) segs /\
             forwards w s w')).
    + exists []. split; [done|]. split; [constructor|apply forwards_refl].
    + intros k [c data] s w1 Hk (segs & -> & Hok & Hlog & Hfiles & Hrng & Hclk & Hrep).
      assert (major_cities data <> []) as Hc.
      { apply list_elem_of_lookup_2 in Hk.
        pose proof cities_nonempty as HF. rewrite Forall_forall in HF.
        apply (HF _ Hk). }
      eapply wp_mono; [apply (county_loop_fields c data _ (concat segs) w1 Hc)|].
      intros s' w2 (seg & -> & Hlen & Hseg & Hlog2 & Hfiles2 & Hrng2 & Hclk2 & Hrep2).
      exists (segs ++ [seg])%list. split; [|split].
      * rewrite concat_app. simpl. by rewrite app_nil_r.
      * rewrite (take_S_r _ _ _ Hk). apply Forall2_app; [done|].
        constructor; [|constructor]. split; [done|]. by rewrite <- Hclk.
      * unfold forwards. rewrite map_app, app_assoc, <- Hlog.
        rewrite Hlog2, Hfiles2, Hfiles, Hrng2, Hrng, Hclk2, Hclk, Hrep2, Hrep.
        done.
  - intros ps w' (segs & -> & Hok & Hfw). exists segs. split; [done|].
    split; [|done]. by rewrite firstn_all in Hok.
Qed.

Lemma segmented_Forall (P : string -> CadInfo -> PropertyData -> Prop)
    (R : PropertyData -> Prop) cads segs :
  segmented P cads segs ->
  (forall c data p, (c, data) ∈ cads -> P c data p -> R p) ->
  Forall R (concat segs).
Proof.
  induction 1 as [|[c d] seg cads segs [_ Hseg] _ IH]; intros HR.
  - apply Forall_nil_2.
  - simpl. apply Forall_app. split.
    + eapply Forall_impl; [exact Hseg|]. intros p Hp.
      apply (HR c d p); [apply list_elem_of_here|exact Hp].
    + apply IH. intros c' d' p Hin. apply HR. by apply list_elem_of_further.
Qed.

Lemma segmented_counties P cads segs :
  segmented P cads segs ->
  (forall c data p, P c data p -> county p = c) ->
  map county (concat segs)
  = flat_map (fun cd => replicate (Z.to_nat (property_count (population cd.2))) cd.1)
             cads.
Proof.
  intros Hseg HP.
  induction Hseg as [|[c d] seg cads segs [Hlen Hok] _ IH]; [done|].
  simpl in *. rewrite map_app, IH. f_equal. rewrite <- Hlen. clear Hlen.
  induction Hok as [|p seg Hp _ IHs]; [done|].
  simpl. by rewrite (HP _ _ _ Hp), IHs.
Qed.

Lemma zip_pool_configured c data :
  (c, data) ∈ texas_cads -> exists pool, zip_ranges !! c = Some pool.
Proof.
  intros Hin.
  repeat (apply elem_of_cons in Hin as [Hin|Hin];
          [inversion Hin; subst; eexists; reflexivity|]).
  by apply elem_of_nil in Hin.
Qed.

Ltac run_batch w ps w' segs Hrun Hsegs Hfw :=
  destruct (wp_returns _ _ _ (create_texas_cad_sample_data_fields w))
    as (ps & w' & Hrun & segs & -> & Hsegs & Hfw).

(** X2. The batch has 113 records, county by county in the order of the table:
    each county name is repeated as often as the county's record count. *)
Theorem batch_counties_in_table_order (w : World) :
  exists ps,
    returns (create_texas_cad_sample_data w) ps /\
    map county ps
    = flat_map (fun cd =>
                  replicate (Z.to_nat (property_count (population cd.2))) cd.1)
               texas_cads /\
    length ps = 113%nat.
Proof.
  run_batch w ps w' segs Hrun Hsegs Hfw.
  exists (concat segs). split; [by exists w'|].
  assert (map county (concat segs)
          = flat_map (fun cd =>
                  replicate (Z.to_nat (property_count (population cd.2))) cd.1)
               texas_cads) as Hmap.
  { apply (segmented_counties _ _ _ Hsegs). intros c data p Hp. apply Hp. }
  split; [exact Hmap|].
  rewrite <- (length_map county), Hmap. reflexivity.
Qed.

(** X3. Every record of the batch is located in its own county: the county is a
    table entry, the city is one of that entry's major cities, the ZIP code
    belongs to the county's ZIP pool, and the address text is made of a house
    number from 100 to 9999, a street of the street list, and the record's
    own city and ZIP code. *)
Theorem batch_locations (w : World) :
  exists ps,
    returns (create_texas_cad_sample_data w) ps /\
    Forall (fun p =>
      exists data pool house_number street,
        (county p, data) ∈ texas_cads /\
        city p ∈ major_cities data /\
        zip_ranges !! county p = Some pool /\
        zipcode p ∈ pool /\
        100 <= house_number <= 9999 /\
        street ∈ street_names /\
        property_address p =
          pretty house_number +:+ " " +:+ street +:+ ", " +:+ city p
            +:+ ", TX " +:+ zipcode p) ps.
Proof.
  run_batch w ps w' segs Hrun Hsegs Hfw.
  exists (concat segs). split; [by exists w'|].
  apply (segmented_Forall _ _ _ _ Hsegs). intros c data p Hin Hp.
  destruct (zip_pool_configured c data Hin) as [pool Hpool].
  destruct (gf_address _ _ _ _ Hp) as (h & st & Hh & Hst & Haddr).
  pose proof (gf_zipcode _ _ _ _ Hp) as Hzip. rewrite Hpool in Hzip.
  exists data, pool, h, st. rewrite (gf_county _ _ _ _ Hp).
  repeat split; try done; try lia. apply Hp.
Qed.



(** X6. Every owner name of the batch is either "F L" without the marker '&',
    or "F & S L" with it, where F and S are first names and L is a last name
    of the name lists: the marker appears exactly for joint ownership. *)
Theorem batch_owner_names (w : World) :
  exists ps,
    returns (create_texas_cad_sample_data w) ps /\
    Forall (fun p =>
      (str_in "&" (owner_name p) = false /\
       exists f l, f ∈ first_names /\ l ∈ last_names /\
         owner_name p = f +:+ " " +:+ l) \/
      (str_in "&" (owner_name p) = true /\
       exists f s l, f ∈ first_names /\ s ∈ first_names /\ l ∈ last_names /\
         owner_name p = f +:+ " & " +:+ s +:+ " " +:+ l)) ps.
Proof.
  run_batch w ps w' segs Hrun Hsegs Hfw.
  exists (concat segs). split; [by exists w'|].
  apply (segmented_Forall _ _ _ _ Hsegs). intros c data p Hin Hp.
  apply owner_shape_marker, Hp.
Qed.


(** X8. Generating the batch forwards every record of it to the table cad_leads
    of the sink, once and in the order of the batch, whatever the sink
    answers, and writes no file. *)
Theorem batch_forwarded_to_sink (w : World) :
  exists ps w',
    create_texas_cad_sample_data w = Returns (ps, w') /\
    sink_log w' = sink_log w ++ map (fun p => ("cad_leads", supabase_data p)) ps /\
    files w' = files w.
Proof.
  run_batch w ps w' segs Hrun Hsegs Hfw.
  exists (concat segs), w'. split; [done|]. destruct Hfw as (Hlog & Hfiles & _).
  done.
Qed.

(** ** Record counts *)



(** ** The extremes of the lead score *)

(** X9. The lead score is 5 exactly when the value is at most 200000, the
    property is at most 5 years old by the clock and the owner name has no
    '&'; it is 10 exactly when the three adjustments add up to 5 or more. *)
Theorem lead_score_extremes (value year_built : Z) (owner : string) (w : World) :
  exists s,
    returns (calculate_cad_lead_score value year_built owner w) s /\
    (s = 5 <-> value <= 200000 /\ current_year w - year_built <= 5 /\
               str_in "&" owner = false) /\
    (s = 10 <-> 5 <= value_points value
                     + age_points (current_year w - year_built)
                     + joint_points owner).
Proof.
  eexists. split; [eexists; apply calculate_cad_lead_score_eq|].
  unfold lead_score_sum, value_points, age_points, joint_points.
  destruct (str_in "&" owner);
    repeat match goal with
           | |- context [?a >? ?b] => destruct (Z.gtb_spec a b)
           end; split; split; intros; try lia; try done;
    repeat split; try lia; try done; intuition (try discriminate; lia).
Qed.

(** ** The row sent to the sink *)

Lemma items_keys p : map fst (items p) = property_keys.
Proof. reflexivity. Qed.

(** The row forwarded to the sink carries every field of the record except
    data_source and scraped_at, in the order and with the values of the
    record, under the same key apart from property_address, sent as
    address_text, and zipcode, sent as zip_code. *)
Lemma sink_row_matches_record (p : PropertyData) :
  supabase_data p
  = map (fun kv => (sink_key kv.1, kv.2))
        (filter (fun kv => kv.1 <> "data_source" /\ kv.1 <> "scraped_at")
                (items p)).
Proof. reflexivity. Qed.

(** ** The other statistics *)

Lemma count_county_cons c p props :
  count_county c (p :: props)
  = (if decide (county p = c) then 1 else 0) + count_county c props.
Proof.
  unfold count_county. destruct (decide (county p = c)) as [E|E].
  - rewrite filter_cons_True by done. simpl length. lia.
  - rewrite filter_cons_False by done. lia.
Qed.

Lemma count_county_nonneg c props : 0 <= count_county c props.
Proof. unfold count_county. lia. Qed.

Lemma count_scores_cons P p props :
  count_scores P (p :: props)
  = (if P (lead_score p) then 1 else 0) + count_scores P props.
Proof.
  unfold count_scores. destruct (P (lead_score p)) eqn:HP.
  - rewrite filter_cons_True by done. simpl length. lia.
  - rewrite filter_cons_False by (rewrite HP; done). lia.
Qed.

Lemma count_homestead_cons p props :
  count_homestead (p :: props)
  = (if homestead_exemption p then 1 else 0) + count_homestead props.
Proof.
  unfold count_homestead. destruct (homestead_exemption p) eqn:HP.
  - rewrite filter_cons_True by done. simpl length. lia.
  - rewrite filter_cons_False by (rewrite HP; done). lia.
Qed.

Lemma tier_step_counts score ls h m l w :
  ls !! "high" = Some h ->
  ls !! "medium" = Some m ->
  ls !! "low" = Some l ->
  exists ls',
    tier_step score ls w = Returns (ls', w) /\
    ls' !! "high" = Some (h + if 8 <=? score then 1 else 0) /\
    ls' !! "medium"
      = Some (m + if (6 <=? score) && (score <? 8) then 1 else 0) /\
    ls' !! "low" = Some (l + if score <? 6 then 1 else 0) /\
    dom ls' = dom ls.
Proof.
  intros Hh Hm Hl. unfold tier_step. rewrite !Z.geb_leb.
  destruct (Z.leb_spec 8 score) as [H8|H8];
    [|destruct (Z.leb_spec 6 score) as [H6|H6]].
  all: eexists; split; [by apply incr_eq|].
  all: rewrite ?lookup_insert_eq, ?lookup_insert_ne by done.
  all: destruct (Z.leb_spec 6 score); try lia.
  all: destruct (Z.ltb_spec score 8); try lia.
  all: destruct (Z.ltb_spec score 6); try lia.
  all: simpl andb; rewrite ?Z.add_0_r.
  all: repeat split; try done; by eapply dom_incr.
Qed.

Lemma stats_loop_rest props : forall v w a b c d h m l,
  value_ranges v !! "under_200k" = Some a ->
  value_ranges v !! "200k_400k" = Some b ->
  value_ranges v !! "400k_600k" = Some c ->
  value_ranges v !! "over_600k" = Some d ->
  lead_scores v !! "high" = Some h ->
  lead_scores v !! "medium" = Some m ->
  lead_scores v !! "low" = Some l ->
  exists v',
    for_each props stats_step v w = Returns (v', w) /\
    lead_scores v' !! "high"
      = Some (h + count_scores (fun x => 8 <=? x) props) /\
    lead_scores v' !! "medium"
      = Some (m + count_scores (fun x => (6 <=? x) && (x <? 8)) props) /\
    lead_scores v' !! "low"
      = Some (l + count_scores (fun x => x <? 6) props) /\
    dom (lead_scores v') = dom (lead_scores v) /\
    (forall k, counties v' !! k =
       match counties v !! k with
       | Some n => Some (n + count_county k props)
       | None => if decide (count_county k props = 0) then None
                 else Some (count_county k props)
       end) /\
    homestead_count v' = homestead_count v + count_homestead props /\
    total_value v' = total_value v + sum_values props.
Proof.
  induction props as [|p props IH]; intros v w a b c d h m l Ha Hb Hc Hd Hh Hm Hl.
  - exists v. unfold count_scores, count_homestead, count_county. simpl.
    rewrite !Z.add_0_r. repeat split; try done.
    intros k. destruct (counties v !! k); [f_equal; lia|done].
  - destruct (bucket_step_spec (appraised_value p) _ _ _ _ _ w Ha Hb Hc Hd)
      as (vr' & Hvr & Ha1 & Hb1 & Hc1 & Hd1 & _).
    destruct (tier_step_counts (lead_score p) _ _ _ _ w Hh Hm Hl)
      as (ls' & Hls & Hh1 & Hm1 & Hl1 & Hdom).
    set (v1 := {| counties :=
                    <[county p := default 0 (counties v !! county p) + 1]> (counties v);
                  value_ranges := vr';
                  lead_scores := ls';
                  homestead_count :=
                    if homestead_exemption p then homestead_count v + 1
                    else homestead_count v;
                  total_value := total_value v + appraised_value p |}).
    assert (stats_step p v w = Returns (v1, w)) as Hstep.
    { unfold stats_step, mbind, M_bind. cbv zeta.
      fold (bucket_step (appraised_value p) (value_ranges v)).
      fold (tier_step (lead_score p) (lead_scores v)).
      rewrite Hvr, Hls. reflexivity. }
    destruct (IH v1 w _ _ _ _ _ _ _ Ha1 Hb1 Hc1 Hd1 Hh1 Hm1 Hl1)
      as (v' & Hrun & Hh' & Hm' & Hl' & Hdom' & Hcnt & Hhome & Htot).
    exists v'. simpl for_each. unfold mbind at 1, M_bind at 1. rewrite Hstep.
    rewrite !count_scores_cons, count_homestead_cons, !Z.add_assoc.
    split; [done|]. do 3 (split; [done|]).
    split; [by rewrite Hdom'|]. split; [|split].
    + intros k. rewrite Hcnt, count_county_cons. subst v1. cbn [counties].
      pose proof (count_county_nonneg k props).
      destruct (decide (county p = k)) as [->|Hne].
      * rewrite lookup_insert_eq.
        destruct (counties v !! k) as [n|]; cbn [default from_option id];
          repeat case_decide; try lia; f_equal; lia.
      * rewrite lookup_insert_ne by done.
        by destruct (counties v !! k) as [n|].
    + rewrite Hhome. subst v1. cbn [homestead_count].
      destruct (homestead_exemption p); lia.
    + rewrite Htot. subst v1. cbn [total_value]. simpl sum_values. lia.
Qed.





(** The run of the loop of [get_cad_stats] from its initial variables. *)
Lemma stats_run self w :
  exists v,
    for_each (all_properties self) stats_step stats_init w = Returns (v, w) /\
    lead_scores v !! "high"
      = Some (count_scores (fun x => 8 <=? x) (all_properties self)) /\
    lead_scores v !! "medium"
      = Some (count_scores (fun x => (6 <=? x) && (x <? 8)) (all_properties self)) /\
    lead_scores v !! "low"
      = Some (count_scores (fun x => x <? 6) (all_properties self)) /\
    dom (lead_scores v) = {[ "high"; "medium"; "low" ]} /\
    (forall k, counties v !! k =
       if decide (count_county k (all_properties self) = 0) then None
       else Some (count_county k (all_properties self))) /\
    homestead_count v = count_homestead (all_properties self) /\
    total_value v = sum_values (all_properties self).
Proof.
  destruct (stats_loop_rest (all_properties self) stats_init w 0 0 0 0 0 0 0)
    as (v & Hrun & Hh & Hm & Hl & Hdom & Hcnt & Hhome & Htot); try reflexivity.
  exists v. rewrite !Z.add_0_l in *. repeat split; done.
Qed.










(** ** The written file *)






(** ** The pipeline *)

Lemma count_county_map c ps :
  count_county c ps
  = Z.of_nat (length (filter (fun x => x = c) (map county ps))).
Proof.
  unfold count_county. f_equal.
  induction ps as [|p ps IH]; [done|]. simpl map.
  destruct (decide (county p = c)) as [E|E].
  - rewrite !filter_cons_True by done. simpl. by rewrite IH.
  - rewrite !filter_cons_False by done. exact IH.
Qed.

Lemma filter_table_none c (cads : list (string * CadInfo)) :
  c ∉ cads.*1 ->
  filter (fun x => x = c)
         (flat_map (fun cd =>
            replicate (Z.to_nat (property_count (population cd.2))) cd.1) cads)
  = [].
Proof.
  induction cads as [|[c' d] cads IH]; [done|].
  simpl. intros Hnot. apply not_elem_of_cons in Hnot as [Hne Hnot].
  rewrite filter_app, IH, app_nil_r by done.
  induction (Z.to_nat (property_count (population d))) as [|n IHn]; [done|].
  simpl. by rewrite filter_cons_False.
Qed.

(** The batch of a run: 113 records, the counties in table order, every
    record forwarded. *)
Lemma batch_run w :
  exists ps w',
    create_texas_cad_sample_data w = Returns (ps, w') /\
    map county ps
    = flat_map (fun cd =>
                  replicate (Z.to_nat (property_count (population cd.2))) cd.1)
               texas_cads /\
    length ps = 113%nat /\
    forwards w ps w'.
Proof.
  run_batch w ps w' segs Hrun Hsegs Hfw.
  exists (concat segs), w'. split; [done|].
  assert (map county (concat segs)
          = flat_map (fun cd =>
                  replicate (Z.to_nat (property_count (population cd.2))) cd.1)
               texas_cads) as Hmap.
  { apply (segmented_counties _ _ _ Hsegs). intros c data p Hp. apply Hp. }
  split; [exact Hmap|]. split; [|done].
  rewrite <- (length_map county), Hmap. reflexivity.
Qed.

Lemma batch_count_configured ps c data :
  map county ps
  = flat_map (fun cd =>
                replicate (Z.to_nat (property_count (population cd.2))) cd.1)
             texas_cads ->
  (c, data) ∈ texas_cads ->
  count_county c ps = property_count (population data).
Proof.
  intros Hmap Hin. rewrite count_county_map, Hmap.
  repeat (apply elem_of_cons in Hin as [Hin|Hin];
          [inversion Hin; subst; vm_compute; reflexivity|]).
  by apply elem_of_nil in Hin.
Qed.

Lemma batch_count_unknown ps c :
  map county ps
  = flat_map (fun cd =>
                replicate (Z.to_nat (property_count (population cd.2))) cd.1)
             texas_cads ->
  c ∉ texas_cads.*1 ->
  count_county c ps = 0.
Proof.
  intros Hmap Hnot. rewrite count_county_map, Hmap.
  by rewrite filter_table_none.
Qed.

(** X16. [scrape_all_texas_cads] followed by [get_cad_stats]: the scraper holds
    the 113 records returned, and the statistics report 113 properties and,
    for every county of the table, that county's record count; a county
    outside the table has no entry. *)
Theorem scrape_all_then_stats (self : TexasCADScraper) (w : World) :
  exists ps self' w1 stats m,
    scrape_all_texas_cads self w = Returns ((ps, self'), w1) /\
    all_properties self' = ps /\
    length ps = 113%nat /\
    returns (get_cad_stats self' w1) stats /\
    stats !! "total_properties" = Some (SInt 113) /\
    stats !! "counties" = Some (SCounts m) /\
    (forall c data, (c, data) ∈ texas_cads ->
       m !! c = Some (property_count (population data))) /\
    (forall c, c ∉ texas_cads.*1 -> m !! c = None).
Proof.
  destruct (batch_run w) as (ps & w1 & Hrun & Hmap & Hlen & Hfw).
  set (self' := mkTexasCADScraper ps).
  assert (all_properties self' <> []) as Hne.
  { subst self'. simpl. intros E. by rewrite E in Hlen. }
  destruct (get_cad_stats_nonempty self' w1 Hne) as (v0 & Hloop & Hstats).
  destruct (stats_run self' w1)
    as (v & Hrun' & _ & _ & _ & _ & Hcnt & _).
  rewrite Hloop in Hrun'. injection Hrun' as ->.
  exists ps, self'. do 3 eexists.
  split; [unfold scrape_all_texas_cads, mbind, M_bind; by rewrite Hrun|].
  split; [done|]. split; [done|].
  split; [eexists; exact Hstats|].
  split; [subst self'; cbn [all_properties]; by rewrite Hlen|].
  split; [reflexivity|]. split.
  - intros c data Hin. rewrite Hcnt. subst self'. cbn [all_properties].
    rewrite (batch_count_configured ps c data Hmap Hin).
    case_decide as E; [|done].
    pose proof (property_count_clamp (population data)). unfold clamp in *. lia.
  - intros c Hnot. rewrite Hcnt. subst self'. cbn [all_properties].
    rewrite (batch_count_unknown ps c Hmap Hnot). done.
Qed.


